(** * A shallow embedding of biobench's orchestration core

    [benchmark.py] (Args, DummyExecutor, save, main and its [__main__]
    block), the backbone registration done by [biobench/__init__.py], the
    error bars of [plot_task] in [notebooks/graphs.py], and the pieces of the
    standard library the orchestrator relies on ([concurrent.futures.as_completed]
    over CPython's set of futures).  The report aggregation
    ([interfaces.BenchmarkReport]) and the backbone registry
    ([biobench/registry.py]) are not part of the sources at hand and are
    modelled from the specification. *)

From Stdlib Require Import List String Ascii ZArith QArith Lia Permutation.
From Stdlib Require Import Sorting.Sorted Bool QArith.Qminmax.
Import ListNotations.
Open Scope string_scope.

(* ------------------------------------------------------------------ *)
(** ** Configuration: [class Args] *)

(** [jobs: typing.Literal["slurm", "process", "none"]] *)
Inductive JobsKind := Slurm | Process | NoJobs.

(** [device: typing.Literal["cpu", "cuda"]] *)
Inductive Device := Cpu | Cuda.

(** The per-task configurations ([newt.Args], [kabr.Args], ...) belong to
    the task modules; the orchestrator only overrides their [device]. *)
Record TaskArgs := mkTaskArgs { targs_device : Device; targs_rest : nat }.

Record Args := mkArgs {
  jobs : JobsKind;
  model_org : string;
  model_ckpt : string;
  device : Device;
  newt_run : bool; newt_args : TaskArgs;
  kabr_run : bool; kabr_args : TaskArgs;
  plantnet_run : bool; plantnet_args : TaskArgs;
  iwildcam_run : bool; iwildcam_args : TaskArgs;
  report_to : string
}.

Definition default_task_args : TaskArgs := mkTaskArgs Cuda 0.

(** [os.path.join(".", "reports")] *)
Definition default_report_to : string := "./reports".

(** [Args()] with every default of the dataclass. *)
Definition default_args : Args := {|
  jobs := NoJobs;
  model_org := "open_clip";
  model_ckpt := "RN50/openai";
  device := Cuda;
  newt_run := false; newt_args := default_task_args;
  kabr_run := false; kabr_args := default_task_args;
  plantnet_run := false; plantnet_args := default_task_args;
  iwildcam_run := false; iwildcam_args := default_task_args;
  report_to := default_report_to |}.

(** [dataclasses.replace(task_args, device=args.device)] *)
Definition with_device (ta : TaskArgs) (d : Device) : TaskArgs :=
  mkTaskArgs d (targs_rest ta).

(* ------------------------------------------------------------------ *)
(** ** Reports (modelled from the spec) *)

(** One per-example result: (example-id, score, optional split-label). *)
Record Example := mkExample {
  example_id : string;
  score : Q;
  split : option string
}.

Record BenchmarkReport := mkReport {
  name : string;
  examples : list Example;
  splits : list (string * Q)
}.

Definition scores (r : BenchmarkReport) : list Q := map score (examples r).

Fixpoint sumQ (l : list Q) : Q :=
  match l with [] => 0 | x :: l' => x + sumQ l' end.

Definition meanQ (l : list Q) : Q := sumQ l / inject_Z (Z.of_nat (List.length l)).

(** Modelled from the spec: [BenchmarkReport.get_mean_score] (file
    [interfaces.py], not in the sources) is the arithmetic mean of the
    example scores.  On an empty example set the spec leaves it undefined
    (the caller must reject empty sets before aggregation); [None] marks
    that case here, and what a call does there is left to the world (see
    [mean_score_of]). *)
Definition get_mean_score (r : BenchmarkReport) : option Q :=
  match scores r with [] => None | ss => Some (meanQ ss) end.

(** Number of bootstrap resamples (a fixed configuration constant). *)
Definition B : nat := 1000.

(** Insertion sort of the resample means. *)
Fixpoint insertQ (x : Q) (l : list Q) : list Q :=
  match l with
  | [] => [x]
  | y :: l' => if Qle_bool x y then x :: l else y :: insertQ x l'
  end.

Fixpoint sortQ (l : list Q) : list Q :=
  match l with [] => [] | x :: l' => insertQ x (sortQ l') end.

(** Nearest-rank percentile, the percentile given in per mille:
    the [ceil(pm * n / 1000)]-th smallest value. *)
Definition percentile (pm : nat) (vs : list Q) : Q :=
  let k := ((pm * List.length vs + 999) / 1000)%nat in
  nth (k - 1)%nat (sortQ vs) 0.

(** One resample: the examples' scores at the drawn indices (drawn with
    replacement, each in [0, n)). *)
Definition resample (ss : list Q) (draw : list nat) : list Q :=
  map (fun i => nth i ss 0) draw.

(** The seeded random generator: for an example set of size [n], the [B]
    index lists it draws.  Reproducible: a function of [n] for a fixed seed. *)
Definition Rng := nat -> list (list nat).

(** A draw is well-formed: [B] resamples, each of [n] indices in [0, n). *)
Definition draws_ok (rng : Rng) (n : nat) : bool :=
  (List.length (rng n) =? B)%nat &&
  forallb (fun d => (List.length d =? n)%nat && forallb (fun i => i <? n)%nat d) (rng n).

(** Modelled from the spec: [BenchmarkReport.get_confidence_interval]
    ([interfaces.py], not in the sources).  Non-parametric bootstrap: the
    mean of each of the [B] resamples, then the 2.5th and 97.5th
    percentiles of those means.  Undefined on an empty example set ([None],
    left to the world as for [get_mean_score]). *)
Definition get_confidence_interval (rng : Rng) (r : BenchmarkReport)
  : option (Q * Q) :=
  match scores r with
  | [] => None
  | ss =>
      let means := map (fun d => meanQ (resample ss d)) (rng (List.length ss)) in
      Some (percentile 25 means, percentile 975 means)
  end.

(* ------------------------------------------------------------------ *)
(** ** Runtime: errors, paths, world and process state *)

(** Exceptions that reach the orchestrator. *)
Inductive Exc :=
| TaskError (msg : string)                   (* anything a task raises *)
| NotImplementedError (msg : string)
| UnknownBackboneError (org : string)
| DuplicateRegistrationError (org : string)
| NameError (var : string)                   (* unbound module global *)
| FileNotFoundError (dir : string)           (* open(.., "a") in a missing dir *)
| OSError (file : string)                    (* open or mkdir refused: permission, a file in the way *)
| AggregationError                           (* aggregation of an empty example set, if it raises *)
| Interrupt (what : string).                 (* a [BaseException] that is not an [Exception]:
                                                [KeyboardInterrupt], [SystemExit] *)

(** [isinstance(e, Exception)] *)
Definition is_exception (e : Exc) : bool :=
  match e with Interrupt _ => false | _ => true end.

(** A model handle returned by a loader. *)
Record Backbone := mkBackbone { bb_org : string; bb_ckpt : string }.

Definition Loader := string -> Backbone.

Inductive Task := Newt | Kabr | Plantnet | Iwildcam.

(** What the task call did: returned a report or raised. *)
Inductive Outcome := Returned (r : BenchmarkReport) | Raised (e : Exc).

(** A [concurrent.futures.Future]: its object address and its outcome. *)
Record Future := mkFuture { fut_addr : Z; fut_outcome : Outcome }.

(** [os.path.join(dir, name)], kept as its two components. *)
Record Path := mkPath { p_dir : string; p_name : string }.

Definition path_eqb (p q : Path) : bool :=
  String.eqb (p_dir p) (p_dir q) && String.eqb (p_name p) (p_name q).

(** The string [os.path.join] builds from a directory and a file name that
    contains no separator. *)
Definition path_str (p : Path) : string :=
  if String.eqb (p_dir p) "" then p_name p
  else match String.get (String.length (p_dir p) - 1) (p_dir p) with
       | Some "/"%char => p_dir p ++ p_name p
       | _ => p_dir p ++ "/" ++ p_name p
       end.

(** [str(n)] for an [int]. *)
Fixpoint digits_aux (fuel : nat) (n : N) (acc : string) : string :=
  match fuel with
  | O => acc
  | S fuel' =>
      let acc' := String (ascii_of_N (48 + N.modulo n 10)) acc in
      let q := N.div n 10 in
      if N.eqb q 0 then acc' else digits_aux fuel' q acc'
  end.

Definition string_of_N (n : N) : string := digits_aux (S (N.size_nat n)) n "".

Definition string_of_Z (z : Z) : string :=
  if (z <? 0)%Z then "-" ++ string_of_N (Z.to_N (- z)) else string_of_N (Z.to_N z).

(** The JSON object [save] appends: [report.to_dict()] with [run_args],
    [mean_score] and the two interval bounds. *)
Record Record_ := mkRecord {
  rec_report : BenchmarkReport;
  rec_run_args : Args;
  rec_mean_score : Q;
  rec_ci_lower : Q;
  rec_ci_upper : Q
}.

Inductive LogEntry :=
| LogWarning (e : Exc)                                  (* "Error running job: %s" *)
| LogMean (ckpt task : string) (mean : Q)               (* "%s on %s: %.1f%%" *)
| LogSplit (ckpt task key : string) (value : Q).        (* "%s on %s; split '%s': %.3f" *)

Inductive Event := EvLoadBackbone (org ckpt : string) | EvSubmit (t : Task).

(** What the process sees from outside: the clock, the allocator, the file
    system's refusals, the seeded generator, the tasks themselves, the order
    in which a process pool's jobs complete, whether a backbone's
    constructor fails, and what aggregating an empty example set does. *)
Record World := mkWorld {
  w_clock : nat -> Z;                  (* int(time.time()) at the n-th reading *)
  w_heap : nat -> Z;                   (* address of the n-th Future allocated *)
  w_unwritable : list Path;            (* files open(.., "a") refuses: permission, read-only *)
  w_rng : Rng;
  w_benchmark : Task -> Backbone -> TaskArgs -> Outcome;
  w_arrival : list Future -> list Future;
  w_load_failure : string -> string -> option Exc;
                                       (* loader(ckpt) raising, per organisation and checkpoint *)
  w_mkdir_refused : list string;       (* directories os.makedirs cannot create:
                                          a file in the way, no permission *)
  w_empty_mean : option Q;             (* get_mean_score() of an empty set: raises (None) or a value *)
  w_empty_ci : option (Q * Q)          (* get_confidence_interval() of an empty set, likewise *)
}.

(** The mutable process state.  [st_writes] is the append-only history of
    every line appended to every file, in order. *)
Record State := mkState {
  st_global_args : option Args;        (* module-global [args], bound under __main__ *)
  st_ticks : nat;
  st_nalloc : nat;
  st_dirs : list string;
  st_writes : list (Path * Record_);
  st_log : list LogEntry;
  st_registry : list (string * Loader);
  st_events : list Event
}.

Definition file_lines (st : State) (p : Path) : list Record_ :=
  map snd (filter (fun pr => path_eqb (fst pr) p) (st_writes st)).

Definition tick (st : State) : State :=
  {| st_global_args := st_global_args st; st_ticks := S (st_ticks st);
     st_nalloc := st_nalloc st; st_dirs := st_dirs st; st_writes := st_writes st;
     st_log := st_log st; st_registry := st_registry st; st_events := st_events st |}.

Definition alloc_submit (t : Task) (st : State) : State :=
  {| st_global_args := st_global_args st; st_ticks := st_ticks st;
     st_nalloc := S (st_nalloc st); st_dirs := st_dirs st; st_writes := st_writes st;
     st_log := st_log st; st_registry := st_registry st;
     st_events := st_events st ++ [EvSubmit t] |}.

Definition add_event (ev : Event) (st : State) : State :=
  {| st_global_args := st_global_args st; st_ticks := st_ticks st;
     st_nalloc := st_nalloc st; st_dirs := st_dirs st; st_writes := st_writes st;
     st_log := st_log st; st_registry := st_registry st;
     st_events := st_events st ++ [ev] |}.

Definition add_dir (d : string) (st : State) : State :=
  {| st_global_args := st_global_args st; st_ticks := st_ticks st;
     st_nalloc := st_nalloc st;
     st_dirs := if existsb (String.eqb d) (st_dirs st) then st_dirs st
                else st_dirs st ++ [d];
     st_writes := st_writes st; st_log := st_log st;
     st_registry := st_registry st; st_events := st_events st |}.

Definition add_write (pr : Path * Record_) (st : State) : State :=
  {| st_global_args := st_global_args st; st_ticks := st_ticks st;
     st_nalloc := st_nalloc st; st_dirs := st_dirs st;
     st_writes := st_writes st ++ [pr]; st_log := st_log st;
     st_registry := st_registry st; st_events := st_events st |}.

Definition add_log (e : LogEntry) (st : State) : State :=
  {| st_global_args := st_global_args st; st_ticks := st_ticks st;
     st_nalloc := st_nalloc st; st_dirs := st_dirs st; st_writes := st_writes st;
     st_log := st_log st ++ [e]; st_registry := st_registry st;
     st_events := st_events st |}.

Definition set_registry (reg : list (string * Loader)) (st : State) : State :=
  {| st_global_args := st_global_args st; st_ticks := st_ticks st;
     st_nalloc := st_nalloc st; st_dirs := st_dirs st; st_writes := st_writes st;
     st_log := st_log st; st_registry := reg; st_events := st_events st |}.

(** ** The reader/state/exception monad of a Python call *)

Definition M (A : Type) : Type := World -> State -> (Exc + A) * State.

Definition ret {A : Type} (a : A) : M A := fun _ st => (inr a, st).

Definition bind {A C : Type} (m : M A) (k : A -> M C) : M C :=
  fun w st =>
    match m w st with
    | (inl e, st') => (inl e, st')
    | (inr a, st') => k a w st'
    end.

Definition raise {A : Type} (e : Exc) : M A := fun _ st => (inl e, st).

Definition modify (f : State -> State) : M unit := fun _ st => (inr tt, f st).

Notation "x <- m ;; k" := (bind m (fun x => k))
  (at level 61, m at next level, right associativity).

Definition from_option {A : Type} (e : Exc) (o : option A) : M A :=
  match o with Some a => ret a | None => raise e end.

(* ------------------------------------------------------------------ *)
(** ** Backbone registry *)

(** Modelled from the spec: [registry.register_vision_backbone]
    ([biobench/registry.py], not in the sources); registering a name twice
    fails with a duplicate-registration error. *)
Definition register_vision_backbone (org : string) (loader : Loader) : M unit :=
  fun _ st =>
    if existsb (fun e => String.eqb (fst e) org) (st_registry st)
    then (inl (DuplicateRegistrationError org), st)
    else (inr tt, set_registry (st_registry st ++ [(org, loader)]) st).

(** Modelled from the spec: [registry.list_vision_backbones]. *)
Definition list_vision_backbones : M (list string) :=
  fun _ st => (inr (map fst (st_registry st)), st).

(** Modelled from the spec: [registry.load_vision_backbone] looks the
    organisation up and calls its loader; an unregistered name fails with
    an unknown-backbone error.  The loader's constructor may itself raise
    (unknown checkpoint, failed download): the world's [w_load_failure]
    says when, and the exception propagates. *)
Definition load_vision_backbone (org ckpt : string) : M Backbone :=
  fun w st =>
    match find (fun e => String.eqb (fst e) org) (st_registry st) with
    | None => (inl (UnknownBackboneError org), st)
    | Some (_, loader) =>
        match w_load_failure w org ckpt with
        | Some e => (inl e, st)
        | None => (inr (loader ckpt), add_event (EvLoadBackbone org ckpt) st)
        end
    end.

(** [third_party_models.TimmVit] and [third_party_models.OpenClip]. *)
Definition TimmVit : Loader := fun ckpt => mkBackbone "timm-vit" ckpt.
Definition OpenClip : Loader := fun ckpt => mkBackbone "open-clip" ckpt.

(** The module body of [biobench/__init__.py], lines 51-52. *)
Definition biobench_init : M unit :=
  _ <- register_vision_backbone "timm-vit" TimmVit ;;
  register_vision_backbone "open-clip" OpenClip.

(* ------------------------------------------------------------------ *)
(** ** [Args.report_path] and [save] *)

(** [int(time.time())] *)
Definition time_time : M Z := fun w st => (inr (w_clock w (st_ticks st)), tick st).

(** Reading the module-global name [args]; it is bound only when
    [benchmark.py] runs as [__main__]. *)
Definition global_args : M Args :=
  fun _ st =>
    match st_global_args st with
    | Some a => (inr a, st)
    | None => (inl (NameError "args"), st)
    end.

(** The file name a clock reading gives: [f"{posix}.jsonl"]. *)
Definition report_file_name (posix : Z) : string := string_of_Z posix ++ ".jsonl".

(** [Args.report_path(self, report)]:
    [posix = int(time.time())];
    [return os.path.join(args.report_to, f"{posix}.jsonl")]. *)
Definition report_path (self : Args) (report : BenchmarkReport) : M Path :=
  posix <- time_time ;;
  g <- global_args ;;
  ret (mkPath (report_to g) (report_file_name posix)).

(** [with open(path, "a") as fd: fd.write(json.dumps(report_dct) + "\n")]:
    [open] fails in a missing directory or on a file it may not append to;
    otherwise the whole line is appended.  A write that fails part-way
    (disk full) is not modelled. *)
Definition append_line (p : Path) (rec : Record_) : M unit :=
  fun w st =>
    if negb (existsb (String.eqb (p_dir p)) (st_dirs st))
    then (inl (FileNotFoundError (p_dir p)), st)
    else if existsb (path_eqb p) (w_unwritable w)
    then (inl (OSError (path_str p)), st)
    else (inr tt, add_write (p, rec) st).

Definition log (e : LogEntry) : M unit := modify (add_log e).

Fixpoint log_splits (ckpt task : string) (sp : list (string * Q)) : M unit :=
  match sp with
  | [] => ret tt
  | (key, value) :: sp' =>
      _ <- log (LogSplit ckpt task key value) ;;
      log_splits ckpt task sp'
  end.

(** [report.get_mean_score()] as [save] sees it: [get_mean_score] on a
    non-empty example set.  On an empty one the spec leaves the result
    undefined and [interfaces.py] is not in the sources, so the model does
    not fix it: the world says whether the call raises ([None]) or returns a
    value ([Some]; NumPy's mean of nothing is a NaN, which [json.dumps]
    writes out). *)
Definition mean_score_of (w : World) (r : BenchmarkReport) : option Q :=
  match examples r with [] => w_empty_mean w | _ :: _ => get_mean_score r end.

(** [report.get_confidence_interval()] as [save] sees it, likewise. *)
Definition ci_of (w : World) (r : BenchmarkReport) : option (Q * Q) :=
  match examples r with
  | [] => w_empty_ci w
  | _ :: _ => get_confidence_interval (w_rng w) r
  end.

Definition mean_score (report : BenchmarkReport) : M Q :=
  fun w st => from_option AggregationError (mean_score_of w report) w st.

Definition confidence_interval (report : BenchmarkReport) : M (Q * Q) :=
  fun w st => from_option AggregationError (ci_of w report) w st.

(** [save(args, report)] *)
Definition save (args : Args) (report : BenchmarkReport) : M unit :=
  mean <- mean_score report ;;
  ci <- confidence_interval report ;;
  p <- report_path args report ;;
  _ <- append_line p (mkRecord report args mean (fst ci) (snd ci)) ;;
  _ <- log (LogMean (model_ckpt args) (name report) mean) ;;
  log_splits (model_ckpt args) (name report) (splits report).

(* ------------------------------------------------------------------ *)
(** ** Executors *)

Inductive Executor := ProcessPoolExecutor | DummyExecutor.

(** [executor.submit(fn, backbone, task_args)].  [DummyExecutor.submit]
    allocates a fresh [Future], runs the task at once and stores its result
    or its exception; it catches only [Exception], so a [BaseException]
    that is not one (an [Interrupt]) propagates out of [submit].  The
    process pool runs the task in a worker, which stores any exception in
    the future. *)
Definition submit (ex : Executor) (t : Task) (bb : Backbone) (ta : TaskArgs)
  : M Future :=
  fun w st =>
    let out := w_benchmark w t bb ta in
    match ex, out with
    | DummyExecutor, Raised e =>
        if is_exception e
        then (inr (mkFuture (w_heap w (st_nalloc st)) out), alloc_submit t st)
        else (inl e, alloc_submit t st)
    | _, _ => (inr (mkFuture (w_heap w (st_nalloc st)) out), alloc_submit t st)
    end.

(** *** CPython's [set] of futures (table of 8 slots)

    [Future] does not override [__hash__] or [__eq__]: its hash is
    [_Py_HashPointer], the address rotated right by four bits (as an
    unsigned 64-bit word, with -1 replaced by -2), and two entries are
    equal only when they are the same object.  [main] submits at most four
    jobs, and a set is resized only once [fill * 5 >= mask * 3], i.e. at the
    fifth entry, so the table keeps its initial 8 slots ([mask = 7]).  With
    [mask = 7] no linear probing happens ([i + LINEAR_PROBES > mask]): each
    step inspects one slot and then moves to
    [i = (i * 5 + 1 + (perturb >>= PERTURB_SHIFT)) & mask]. *)

Definition word64 : Z := 2 ^ 64.

Definition hash_pointer (addr : Z) : Z :=
  let y := Z.lor (Z.shiftr addr 4) (Z.land (Z.shiftl addr 60) (word64 - 1)) in
  if (y =? word64 - 1)%Z then (word64 - 2)%Z else y.

Definition set_mask : Z := 7.

Definition Table := nat -> option Future.

Definition table_empty : Table := fun _ => None.

Definition table_update (t : Table) (i : nat) (f : Future) : Table :=
  fun j => if (j =? i)%nat then Some f else t j.

(** [set_add_entry]: probe until a free slot or the same object. *)
Fixpoint set_probe (fuel : nat) (t : Table) (i perturb : Z) (f : Future) : Table :=
  match fuel with
  | O => t
  | S fuel' =>
      match t (Z.to_nat i) with
      | None => table_update t (Z.to_nat i) f
      | Some g =>
          if (fut_addr g =? fut_addr f)%Z then t
          else
            let perturb' := Z.shiftr perturb 5 in
            set_probe fuel' t (Z.land (i * 5 + 1 + perturb') set_mask) perturb' f
      end
  end.

Definition set_add (t : Table) (f : Future) : Table :=
  let h := hash_pointer (fut_addr f) in
  set_probe 64 t (Z.land h set_mask) h f.

(** [set(iterable)] adds the elements one after the other. *)
Definition set_of_list (l : list Future) : Table := fold_left set_add l table_empty.

(** Iterating a set walks its table in slot order. *)
Definition set_iter (t : Table) : list Future :=
  flat_map (fun i => match t i with Some f => [f] | None => [] end) (seq 0 8).

(** [concurrent.futures.as_completed(fs)] when every future is already
    finished: [fs = set(fs)]; [finished = set(f for f in fs if done)];
    [finished = list(finished)]; then [_yield_finished_futures] yields
    [fs[-1]] and pops it, i.e. the list from its end. *)
Definition as_completed_finished (fs : list Future) : list Future :=
  let s := set_of_list fs in
  let finished := set_of_list (set_iter s) in
  rev (set_iter finished).

(** [as_completed]: the futures of a [DummyExecutor] are all finished when
    collection starts; those of a process pool arrive in the order the
    workers complete them. *)
Definition as_completed (ex : Executor) (fs : list Future) : M (list Future) :=
  fun w st =>
    match ex with
    | DummyExecutor => (inr (as_completed_finished fs), st)
    | ProcessPoolExecutor => (inr (w_arrival w fs), st)
    end.

(* ------------------------------------------------------------------ *)
(** ** [main] *)

Definition choose_executor (j : JobsKind) : M Executor :=
  match j with
  | Process => ret ProcessPoolExecutor
  | Slurm => raise (NotImplementedError "submitit not tested yet!")
  | NoJobs => ret DummyExecutor
  end.

(** [if args.<task>_run: jobs.append(executor.submit(<task>.benchmark,
    backbone, dataclasses.replace(args.<task>_args, device=args.device)))] *)
Definition submit_if (ex : Executor) (run : bool) (t : Task) (bb : Backbone)
  (ta : TaskArgs) (d : Device) (js : list Future) : M (list Future) :=
  if run then (f <- submit ex t bb (with_device ta d) ;; ret (js ++ [f])%list)
  else ret js.

(** [os.makedirs(path, exist_ok=True)]: nothing to do for an existing
    directory; [os.mkdir("")] raises [FileNotFoundError]; a directory the
    file system refuses (a file in the way, no permission) raises. *)
Definition makedirs (d : string) : M unit :=
  fun w st =>
    if String.eqb d "" then (inl (FileNotFoundError d), st)
    else if existsb (String.eqb d) (st_dirs st) then (inr tt, st)
    else if existsb (String.eqb d) (w_mkdir_refused w) then (inl (OSError d), st)
    else (inr tt, add_dir d st).

(** The loop of step 3:
    [for future in as_completed(jobs): if future.exception(): log; continue;
     report = future.result(); save(args, report)]. *)
Fixpoint collect (args : Args) (futs : list Future) : M unit :=
  match futs with
  | [] => ret tt
  | f :: rest =>
      match fut_outcome f with
      | Raised e => _ <- log (LogWarning e) ;; collect args rest
      | Returned report => _ <- save args report ;; collect args rest
      end
  end.

Definition main (args : Args) : M unit :=
  executor <- choose_executor (jobs args) ;;
  backbone <- load_vision_backbone (model_org args) (model_ckpt args) ;;
  js <- submit_if executor (newt_run args) Newt backbone (newt_args args) (device args) [] ;;
  js <- submit_if executor (kabr_run args) Kabr backbone (kabr_args args) (device args) js ;;
  js <- submit_if executor (plantnet_run args) Plantnet backbone (plantnet_args args) (device args) js ;;
  js <- submit_if executor (iwildcam_run args) Iwildcam backbone (iwildcam_args args) (device args) js ;;
  _ <- makedirs (report_to args) ;;
  futs <- as_completed executor js ;;
  collect args futs.

(* ------------------------------------------------------------------ *)
(** ** Observations on runs *)

(** The exceptions logged by [logger.warning("Error running job: %s", ...)]. *)
Definition log_warnings (l : list LogEntry) : list Exc :=
  flat_map (fun e => match e with LogWarning x => [x] | _ => [] end) l.

Definition returned_reports (futs : list Future) : list BenchmarkReport :=
  flat_map (fun f => match fut_outcome f with Returned r => [r] | Raised _ => [] end) futs.

Definition raised_excs (futs : list Future) : list Exc :=
  flat_map (fun f => match fut_outcome f with Raised e => [e] | Returned _ => [] end) futs.

(** The lines the collection loop appends when every save succeeds: each
    returned report, in collection order, under the file named after the
    clock reading taken by its own [save]. *)
Fixpoint saved_by_collect (clock : nat -> Z) (dir : string) (t : nat)
  (futs : list Future) : list (Path * BenchmarkReport) :=
  match futs with
  | [] => []
  | f :: rest =>
      match fut_outcome f with
      | Raised _ => saved_by_collect clock dir t rest
      | Returned r =>
          (mkPath dir (report_file_name (clock t)), r)
            :: saved_by_collect clock dir (S t) rest
      end
  end.

(** The slot of a future in a fresh 8-slot set table. *)
Definition slot (f : Future) : nat := Z.to_nat (Z.land (hash_pointer (fut_addr f)) set_mask).

(** The futures listed by increasing slot, one per occupied slot. *)
Definition by_slot (fs : list Future) : list Future :=
  flat_map (fun i => match find (fun f => (slot f =? i)%nat) fs with
                     | Some f => [f] | None => [] end) (seq 0 8).

(** A small run: NeWT and KABR enabled on the in-process executor. *)
Definition demo_args : Args := {|
  jobs := NoJobs; model_org := "open-clip"; model_ckpt := "RN50/openai"; device := Cpu;
  newt_run := true; newt_args := default_task_args;
  kabr_run := true; kabr_args := default_task_args;
  plantnet_run := false; plantnet_args := default_task_args;
  iwildcam_run := false; iwildcam_args := default_task_args;
  report_to := default_report_to |}.

Definition one_example_report (task : string) : BenchmarkReport :=
  mkReport task [mkExample "img-0" 1 None] [].

Definition demo_rng : Rng := fun n => repeat (repeat 0%nat n) B.

(** The world of the small run: NeWT's outcome is given, KABR returns a
    one-example report; futures are allocated 16 bytes apart from [0x10];
    the clock reads one second later at every call; the backbone loads and
    the output directory can be created; aggregating an empty example set
    raises. *)
Definition demo_world (newt_outcome : Outcome) (refused : list Path) : World := {|
  w_clock := fun n => (1700000000 + Z.of_nat n)%Z;
  w_heap := fun n => (16 * Z.of_nat (S n))%Z;
  w_unwritable := refused;
  w_rng := demo_rng;
  w_benchmark := fun t _ _ =>
    match t with Newt => newt_outcome | _ => Returned (one_example_report "kabr") end;
  w_arrival := fun l => l;
  w_load_failure := fun _ _ => None;
  w_mkdir_refused := [];
  w_empty_mean := None;
  w_empty_ci := None |}.

(** A world that differs from [w] only in what aggregating an empty example
    set gives. *)
Definition with_empty_aggregation (w : World) (m : option Q) (ci : option (Q * Q)) : World := {|
  w_clock := w_clock w; w_heap := w_heap w; w_unwritable := w_unwritable w;
  w_rng := w_rng w; w_benchmark := w_benchmark w; w_arrival := w_arrival w;
  w_load_failure := w_load_failure w; w_mkdir_refused := w_mkdir_refused w;
  w_empty_mean := m; w_empty_ci := ci |}.

(** A world that differs from [w] only in which backbone loads fail. *)
Definition with_load_failure (w : World) (f : string -> string -> option Exc) : World := {|
  w_clock := w_clock w; w_heap := w_heap w; w_unwritable := w_unwritable w;
  w_rng := w_rng w; w_benchmark := w_benchmark w; w_arrival := w_arrival w;
  w_load_failure := f; w_mkdir_refused := w_mkdir_refused w;
  w_empty_mean := w_empty_mean w; w_empty_ci := w_empty_ci w |}.

(** The process state once [biobench] is imported and [args] is bound. *)
Definition demo_state : State :=
  mkState (Some demo_args) 0 0 [] [] []
    [("timm-vit", TimmVit); ("open-clip", OpenClip)] [].

(** The same state once [main] has created the output directory. *)
Definition demo_ready_state : State :=
  mkState (Some demo_args) 0 0 [default_report_to] [] []
    [("timm-vit", TimmVit); ("open-clip", OpenClip)] [].

(** The two futures the small run submits, at addresses [0x10] and [0x20]. *)
Definition demo_futures (newt_outcome : Outcome) : list Future :=
  [mkFuture 16 newt_outcome; mkFuture 32 (Returned (one_example_report "kabr"))].

(** The small run's configuration with an empty [report_to]. *)
Definition unplaced_args : Args := {|
  jobs := NoJobs; model_org := "open-clip"; model_ckpt := "RN50/openai"; device := Cpu;
  newt_run := true; newt_args := default_task_args;
  kabr_run := true; kabr_args := default_task_args;
  plantnet_run := false; plantnet_args := default_task_args;
  iwildcam_run := false; iwildcam_args := default_task_args;
  report_to := "" |}.

(** The small run's configuration with the cluster backend requested. *)
Definition slurm_args : Args := {|
  jobs := Slurm; model_org := "open-clip"; model_ckpt := "RN50/openai"; device := Cpu;
  newt_run := true; newt_args := default_task_args;
  kabr_run := true; kabr_args := default_task_args;
  plantnet_run := false; plantnet_args := default_task_args;
  iwildcam_run := false; iwildcam_args := default_task_args;
  report_to := default_report_to |}.

(* ------------------------------------------------------------------ *)
(** ** Running [benchmark.py] as a script *)






(* ------------------------------------------------------------------ *)
(** ** [notebooks/graphs.py]: the error bars of [plot_task] *)

(** A row of the table [load_reports] builds, with the columns [plot_task]
    reads. *)
Record ReportRow := mkRow {
  report_name : string;
  model : string;
  report_mean_score : Q;
  report_confidence_interval_lower : Q;
  report_confidence_interval_upper : Q
}.

(** [np.max(a, 0)] on a one-dimensional array: the largest element (the
    reduction along axis 0); [None] is the [ValueError] numpy raises on a
    zero-size array. *)
Definition np_max (xs : list Q) : option Q :=
  match xs with
  | [] => None
  | x :: xs' => Some (fold_left Qmax xs' x)
  end.

(** The two rows of [yerr] in [plot_task(reports, task)]:
    [reports = reports.filter(pl.col("report_name") == task)];
    [yerr = np.array([ys, ys])];
    [yerr[0] = np.max(yerr[0] - lower, 0)]; [yerr[1] = upper - yerr[1]].
    Assigning the scalar to [yerr[0]] broadcasts it over the row. *)
Definition plot_task_yerr (reports : list ReportRow) (task : string)
  : option (list Q * list Q) :=
  let rows := filter (fun r => String.eqb (report_name r) task) reports in
  let ys := map report_mean_score rows in
  let lowers := map report_confidence_interval_lower rows in
  let uppers := map report_confidence_interval_upper rows in
  match np_max (map (fun p => (fst p - snd p)%Q) (combine ys lowers)) with
  | None => None
  | Some m => Some (map (fun _ => m) ys, map (fun p => (fst p - snd p)%Q) (combine uppers ys))
  end.

(* ------------------------------------------------------------------ *)
(** ** Observations on [main]'s dispatch *)

(** The tasks [main] submits, in the order of its [if] statements, each
    with its own configuration. *)
Definition enabled_tasks (a : Args) : list (Task * TaskArgs) :=
  ((if newt_run a then [(Newt, newt_args a)] else []) ++
   (if kabr_run a then [(Kabr, kabr_args a)] else []) ++
   (if plantnet_run a then [(Plantnet, plantnet_args a)] else []) ++
   (if iwildcam_run a then [(Iwildcam, iwildcam_args a)] else []))%list.

(** The futures submitting [ts] one after the other yields, from the
    [n]-th allocation on, each task called with device [d]. *)
Fixpoint submitted_futures (w : World) (bb : Backbone) (d : Device) (n : nat)
  (ts : list (Task * TaskArgs)) : list Future :=
  match ts with
  | [] => []
  | (t, ta) :: ts' =>
      mkFuture (w_heap w n) (w_benchmark w t bb (with_device ta d))
        :: submitted_futures w bb d (S n) ts'
  end.

(** The executor [main] picks for a supported [jobs] value. *)
Definition jobs_executor (j : JobsKind) : Executor :=
  match j with Process => ProcessPoolExecutor | _ => DummyExecutor end.

(** Whether [submit] on [ex] lets a task's outcome out as an exception: only
    [DummyExecutor] does, for a [BaseException] that is not an [Exception]. *)
Definition escapes (ex : Executor) (o : Outcome) : bool :=
  match ex, o with
  | DummyExecutor, Raised e => negb (is_exception e)
  | _, _ => false
  end.

(** Every task of [ts], called with device [d], ends up in a future. *)
Definition submits_return (w : World) (ex : Executor) (bb : Backbone) (d : Device)
  (ts : list (Task * TaskArgs)) : bool :=
  forallb (fun p => negb (escapes ex (w_benchmark w (fst p) bb (with_device (snd p) d)))) ts.

(** [os.makedirs(d, exist_ok=True)] returns normally when the directories
    [dirs] exist. *)
Definition makedirs_succeeds (w : World) (dirs : list string) (d : string) : bool :=
  negb (String.eqb d "") &&
  (existsb (String.eqb d) dirs || negb (existsb (String.eqb d) (w_mkdir_refused w))).

(** Submitting the tasks [ts] one after the other, appending each future to
    the jobs list [js]: the four [if] statements of [main], step 2. *)
Fixpoint submit_all (ex : Executor) (bb : Backbone) (d : Device)
  (ts : list (Task * TaskArgs)) (js : list Future) : M (list Future) :=
  match ts with
  | [] => ret js
  | (t, ta) :: ts' =>
      f <- submit ex t bb (with_device ta d) ;; submit_all ex bb d ts' (js ++ [f])%list
  end.

(** A set table holding exactly the futures [l], each in one slot below 8. *)
Definition table_holds (t : Table) (l : list Future) : Prop :=
  (forall j g, t j = Some g -> (j < 8)%nat /\ In g l) /\
  (forall g, In g l -> exists j, t j = Some g) /\
  (forall j1 j2 g, t j1 = Some g -> t j2 = Some g -> j1 = j2).

(** The small run's configuration with no task enabled. *)
Definition idle_args : Args := {|
  jobs := NoJobs; model_org := "open-clip"; model_ckpt := "RN50/openai"; device := Cpu;
  newt_run := false; newt_args := default_task_args;
  kabr_run := false; kabr_args := default_task_args;
  plantnet_run := false; plantnet_args := default_task_args;
  iwildcam_run := false; iwildcam_args := default_task_args;
  report_to := default_report_to |}.

(* ================================================================== *)
(** * Properties *)

Open Scope list_scope.

(** ** The bootstrap interval *)

Section Aggregation.

Lemma insertQ_perm (x : Q) (l : list Q) : Permutation (insertQ x l) (x :: l).
Proof.
  induction l as [|y l IH]; simpl; [reflexivity|].
  destruct (Qle_bool x y); [reflexivity|].
  rewrite IH. apply perm_swap.
Qed.

Lemma sortQ_perm (l : list Q) : Permutation (sortQ l) l.
Proof.
  induction l as [|x l IH]; simpl; [reflexivity|].
  rewrite insertQ_perm. now apply perm_skip.
Qed.

Lemma sortQ_length (l : list Q) : List.length (sortQ l) = List.length l.
Proof. apply Permutation_length, sortQ_perm. Qed.





(** The nearest rank of a per-mille percentile stays within the list. *)
Lemma rank_lt (pm n : nat) :
  (pm <= 1000)%nat -> (0 < n)%nat -> ((pm * n + 999) / 1000 - 1 < n)%nat.
Proof.
  intros Hpm Hn.
  assert ((pm * n + 999) / 1000 < S n)%nat.
  { apply Nat.Div0.div_lt_upper_bound. nia. }
  lia.
Qed.


Lemma percentile_const (pm : nat) (vs : list Q) (c : Q) :
  (pm <= 1000)%nat -> vs <> [] -> Forall (fun v => v == c) vs ->
  percentile pm vs == c.
Proof.
  intros Hpm Hne Hall. unfold percentile.
  assert (Hin : In (nth ((pm * List.length vs + 999) / 1000 - 1) (sortQ vs) 0) vs).
  { apply (Permutation_in _ (sortQ_perm vs)), nth_In.
    rewrite sortQ_length. apply rank_lt; [assumption|].
    destruct vs; [congruence | simpl; lia]. }
  rewrite Forall_forall in Hall. now apply Hall.
Qed.

Lemma sumQ_const (l : list Q) (c : Q) :
  Forall (fun v => v == c) l -> sumQ l == inject_Z (Z.of_nat (List.length l)) * c.
Proof.
  induction l as [|x l IH]; intros Hall.
  - reflexivity.
  - inversion Hall as [|? ? Hx Hl]; subst.
    change (sumQ (x :: l)) with (x + sumQ l).
    change (List.length (x :: l)) with (S (List.length l)).
    rewrite Hx, (IH Hl), Nat2Z.inj_succ, <- Z.add_1_r, inject_Z_plus. ring.
Qed.

Lemma meanQ_const (l : list Q) (c : Q) :
  l <> [] -> Forall (fun v => v == c) l -> meanQ l == c.
Proof.
  intros Hne Hall. unfold meanQ. rewrite (sumQ_const l c Hall).
  assert (Hn : ~ inject_Z (Z.of_nat (List.length l)) == 0).
  { destruct l as [|x l]; [congruence|].
    unfold Qeq; simpl. lia. }
  field. exact Hn.
Qed.

End Aggregation.

Section BootstrapClaims.

Lemma resample_const (ss : list Q) (d : list nat) (c : Q) :
  Forall (fun v => v == c) ss ->
  forallb (fun i => i <? List.length ss)%nat d = true ->
  Forall (fun v => v == c) (resample ss d).
Proof.
  intros Hall Hd. unfold resample.
  apply Forall_forall. intros v Hv.
  apply in_map_iff in Hv as [i [<- Hi]].
  rewrite forallb_forall in Hd. specialize (Hd i Hi). apply Nat.ltb_lt in Hd.
  rewrite Forall_forall in Hall. apply Hall, nth_In, Hd.
Qed.




(** C7: when every score equals [c] (in particular for a single example),
    the mean score is [c] and the bootstrap interval collapses onto it:
    [lower == upper == mean_score]. *)
Theorem bootstrap_interval_degenerate (rng : Rng) (r : BenchmarkReport) (c : Q) :
  examples r <> [] ->
  Forall (fun e => score e == c) (examples r) ->
  draws_ok rng (List.length (examples r)) = true ->
  exists m lo hi,
    get_mean_score r = Some m /\ get_confidence_interval rng r = Some (lo, hi) /\
    lo == m /\ hi == m /\ m == c.
Proof.
  intros Hne Hall Hok.
  assert (Hs : Forall (fun v => v == c) (scores r)).
  { unfold scores. apply Forall_map, Hall. }
  assert (Hlen : List.length (scores r) = List.length (examples r)) by apply length_map.
  unfold draws_ok in Hok. apply andb_prop in Hok as [HB Hds].
  apply Nat.eqb_eq in HB. rewrite forallb_forall in Hds.
  unfold get_mean_score, get_confidence_interval.
  destruct (scores r) as [|s ss] eqn:Hsc.
  { destruct (examples r); [congruence | discriminate]. }
  rewrite <- Hsc in *. rewrite Hlen.
  set (means := map (fun d => meanQ (resample (scores r) d)) (rng (List.length (examples r)))).
  assert (Hm : meanQ (scores r) == c).
  { apply meanQ_const; [rewrite Hsc; discriminate | exact Hs]. }
  assert (Hmeans : Forall (fun v => v == c) means).
  { apply Forall_forall. intros v Hv.
    apply in_map_iff in Hv as [d [<- Hd]].
    apply Hds in Hd. apply andb_prop in Hd as [Hdl Hdi].
    apply Nat.eqb_eq in Hdl.
    apply meanQ_const.
    - unfold resample. intro E. apply map_eq_nil in E. subst d.
      simpl in Hdl. destruct (examples r); [congruence | discriminate].
    - apply resample_const; [exact Hs | now rewrite Hlen]. }
  assert (Hnem : means <> []).
  { unfold means. intro E. apply map_eq_nil in E. rewrite E in HB. discriminate. }
  exists (meanQ (scores r)), (percentile 25 means), (percentile 975 means).
  repeat split; try reflexivity.
  - rewrite Hm. apply percentile_const; [lia | exact Hnem | exact Hmeans].
  - rewrite Hm. apply percentile_const; [lia | exact Hnem | exact Hmeans].
  - exact Hm.
Qed.

Lemma bootstrap_interval_degenerate_witness :
  exists m lo hi,
    get_mean_score (mkReport "t" [mkExample "only" (1 # 2) None] []) = Some m /\
    get_confidence_interval (fun n => repeat (repeat 0%nat n) B)
      (mkReport "t" [mkExample "only" (1 # 2) None] []) = Some (lo, hi) /\
    lo == m /\ hi == m /\ m == 1 # 2.
Proof.
  apply (bootstrap_interval_degenerate (fun n => repeat (repeat 0%nat n) B)
           (mkReport "t" [mkExample "only" (1 # 2) None] []) (1 # 2)).
  - discriminate.
  - repeat constructor.
  - vm_compute. reflexivity.
Defined.

End BootstrapClaims.

(** ** Saving and the collection loop *)

Section Persistence.

Variable w : World.

Lemma log_warnings_app (l1 l2 : list LogEntry) :
  log_warnings (l1 ++ l2) = log_warnings l1 ++ log_warnings l2.
Proof. unfold log_warnings. apply flat_map_app. Qed.

Lemma log_splits_ok (ck tk : string) (sp : list (string * Q)) (st : State) :
  exists st', log_splits ck tk sp w st = (inr tt, st') /\
    st_global_args st' = st_global_args st /\ st_ticks st' = st_ticks st /\
    st_dirs st' = st_dirs st /\ st_writes st' = st_writes st /\
    log_warnings (st_log st') = log_warnings (st_log st).
Proof.
  revert st. induction sp as [|[key value] sp IH]; intros st; simpl.
  - exists st. repeat split.
  - unfold bind at 1. simpl.
    destruct (IH (add_log (LogSplit ck tk key value) st))
      as [st' [Heq [Hg [Ht [Hd [Hw Hl]]]]]].
    exists st'. rewrite Heq. simpl in *.
    repeat split; try assumption.
    rewrite Hl, log_warnings_app. simpl. apply app_nil_r.
Qed.

Lemma scores_nonempty (r : BenchmarkReport) :
  examples r <> [] -> exists s ss, scores r = s :: ss.
Proof.
  unfold scores. destruct (examples r) as [|e es]; [congruence|].
  intros _. now exists (score e), (map score es).
Qed.

(** On a non-empty report [save]'s aggregation is the spec's. *)
Lemma aggregation_nonempty (r : BenchmarkReport) :
  examples r <> [] ->
  mean_score_of w r = Some (meanQ (scores r)) /\
  exists lo hi, ci_of w r = Some (lo, hi).
Proof.
  intros Hne. destruct (scores_nonempty r Hne) as [s [ss Hs]].
  unfold mean_score_of, ci_of.
  destruct (examples r) as [|e es]; [congruence|].
  unfold get_mean_score, get_confidence_interval. rewrite Hs. eauto.
Qed.

(** [save] of a non-empty report, with the module-global [args] bound, its
    directory present and no write refused: one line appended to the file
    named after the clock reading taken by this very call. *)
Lemma save_ok (args g : Args) (r : BenchmarkReport) (st : State) :
  st_global_args st = Some g ->
  existsb (String.eqb (report_to g)) (st_dirs st) = true ->
  w_unwritable w = [] ->
  examples r <> [] ->
  exists st' rec,
    save args r w st = (inr tt, st') /\
    st_writes st' = st_writes st ++
      [(mkPath (report_to g) (report_file_name (w_clock w (st_ticks st))), rec)] /\
    rec_report rec = r /\ st_ticks st' = S (st_ticks st) /\
    st_global_args st' = st_global_args st /\ st_dirs st' = st_dirs st /\
    log_warnings (st_log st') = log_warnings (st_log st).
Proof.
  intros Hg Hdir Hun Hne.
  destruct (aggregation_nonempty r Hne) as [Hm [lo [hi Hci]]].
  unfold save, bind, mean_score, confidence_interval. rewrite Hm, Hci. simpl.
  unfold report_path, bind, time_time, global_args. simpl. rewrite Hg.
  unfold append_line, ret. simpl. rewrite Hdir, Hun. simpl.
  destruct (log_splits_ok (model_ckpt args) (name r) (splits r)
              (add_log (LogMean (model_ckpt args) (name r) (meanQ (scores r)))
                 (add_write (mkPath (report_to g) (report_file_name (w_clock w (st_ticks st))),
                             mkRecord r args (meanQ (scores r)) lo hi) (tick st))))
    as [st' [Heq [Hg' [Ht [Hd [Hw Hl]]]]]].
  exists st', (mkRecord r args (meanQ (scores r)) lo hi).
  unfold log, modify. simpl. rewrite Heq. simpl in *.
  repeat split; try congruence.
  rewrite Hl, log_warnings_app. simpl. apply app_nil_r.
Qed.

End Persistence.

Section Collecting.

Variable w : World.

Lemma collect_all_saved (args g : Args) (futs : list Future) (st : State) :
  st_global_args st = Some g ->
  existsb (String.eqb (report_to g)) (st_dirs st) = true ->
  w_unwritable w = [] ->
  (forall r, In r (returned_reports futs) -> examples r <> []) ->
  exists st' new,
    collect args futs w st = (inr tt, st') /\
    st_writes st' = st_writes st ++ new /\
    map (fun pr => (fst pr, rec_report (snd pr))) new =
      saved_by_collect (w_clock w) (report_to g) (st_ticks st) futs /\
    log_warnings (st_log st') = log_warnings (st_log st) ++ raised_excs futs.
Proof.
  revert st. induction futs as [|f rest IH]; intros st Hg Hdir Hun Hne.
  - exists st, []. repeat split; simpl; now rewrite ?app_nil_r.
  - unfold returned_reports in Hne. simpl in Hne.
    simpl. unfold raised_excs. simpl.
    destruct (fut_outcome f) as [r | e] eqn:Ho.
    + destruct (save_ok w args g r st Hg Hdir Hun (Hne r (or_introl eq_refl)))
        as [st1 [rec [Hs [Hw1 [Hr [Ht1 [Hg1 [Hd1 Hl1]]]]]]]].
      destruct (IH st1) as [st' [new [Hc [Hw' [Hmap Hl']]]]];
        [congruence | congruence | assumption | intros r' Hr'; apply Hne; now right |].
      exists st', ((mkPath (report_to g) (report_file_name (w_clock w (st_ticks st))), rec) :: new).
      unfold bind. rewrite Hs, Hc. repeat split.
      * rewrite Hw', Hw1, <- app_assoc. reflexivity.
      * simpl. rewrite Hr, Hmap, Ht1. reflexivity.
      * rewrite Hl', Hl1. reflexivity.
    + destruct (IH (add_log (LogWarning e) st)) as [st' [new [Hc [Hw' [Hmap Hl']]]]];
        [assumption | assumption | assumption | exact Hne |].
      exists st', new. unfold bind, log, modify. rewrite Hc. repeat split.
      * exact Hw'.
      * exact Hmap.
      * rewrite Hl'. simpl. rewrite log_warnings_app, <- app_assoc. reflexivity.
Qed.

Lemma saved_by_collect_reports (clock : nat -> Z) (dir : string) (t : nat) (futs : list Future) :
  map snd (saved_by_collect clock dir t futs) = returned_reports futs.
Proof.
  revert t. induction futs as [|f rest IH]; intros t; [reflexivity|].
  unfold returned_reports in *. simpl.
  destruct (fut_outcome f); simpl; now rewrite IH.
Qed.

Lemma saved_by_collect_paths (clock : nat -> Z) (dir : string) (t : nat) (futs : list Future) :
  map fst (saved_by_collect clock dir t futs) =
  map (fun k => mkPath dir (report_file_name (clock (t + k)%nat)))
      (seq 0 (List.length (returned_reports futs))).
Proof.
  revert t. induction futs as [|f rest IH]; intros t; [reflexivity|].
  unfold returned_reports in *. simpl.
  destruct (fut_outcome f); simpl.
  - rewrite IH, Nat.add_0_r, <- seq_shift, map_map. f_equal.
    apply map_ext. intros k. do 3 f_equal. lia.
  - apply IH.
Qed.

Lemma outcomes_split (futs : list Future) :
  List.length futs = (List.length (returned_reports futs) + List.length (raised_excs futs))%nat.
Proof.
  induction futs as [|f rest IH]; [reflexivity|].
  unfold returned_reports, raised_excs in *. simpl.
  destruct (fut_outcome f); simpl; lia.
Qed.

(** C3: in the collecting phase, when exactly one of the submitted jobs
    raised, whatever order the completions arrive in, the loop runs to its
    end, every other job's report is appended exactly once (N-1 lines) and
    exactly one failure is logged — given that the other reports can be
    saved (non-empty, output directory present, no write refused). *)
Theorem collect_survives_one_failed_job (args g : Args) (submitted arrived : list Future)
  (st : State) (e : Exc) :
  Permutation arrived submitted ->
  raised_excs submitted = [e] ->
  (forall r, In r (returned_reports submitted) -> examples r <> []) ->
  st_global_args st = Some g ->
  existsb (String.eqb (report_to g)) (st_dirs st) = true ->
  w_unwritable w = [] ->
  exists st' new,
    collect args arrived w st = (inr tt, st') /\
    st_writes st' = st_writes st ++ new /\
    Permutation (map (fun pr => rec_report (snd pr)) new) (returned_reports submitted) /\
    List.length new = (List.length submitted - 1)%nat /\
    log_warnings (st_log st') = log_warnings (st_log st) ++ [e].
Proof.
  intros Hp He Hne Hg Hdir Hun.
  assert (Hpr : Permutation (returned_reports arrived) (returned_reports submitted))
    by (unfold returned_reports; now rewrite Hp).
  assert (Hpe : raised_excs arrived = [e]).
  { apply Permutation_length_1_inv. rewrite <- He. unfold raised_excs.
    symmetry. now rewrite Hp. }
  destruct (collect_all_saved args g arrived st Hg Hdir Hun) as [st' [new [Hc [Hw [Hmap Hl]]]]].
  { intros r Hr. apply Hne. now apply (Permutation_in _ Hpr). }
  assert (Hrep : map (fun pr => rec_report (snd pr)) new = returned_reports arrived).
  { rewrite <- (saved_by_collect_reports (w_clock w) (report_to g) (st_ticks st)), <- Hmap.
    now rewrite map_map. }
  exists st', new. repeat split; try assumption.
  - now rewrite Hrep.
  - rewrite <- (length_map (fun pr => rec_report (snd pr))), Hrep.
    rewrite (Permutation_length Hpr).
    pose proof (outcomes_split submitted) as Hs. rewrite He in Hs. simpl in Hs. lia.
  - now rewrite Hl, Hpe.
Qed.

(** C1 (amended): [save] re-reads the clock at every call.  When every
    save of the collection loop succeeds, the k-th report saved is appended
    to [<report_to of the global args>/<k-th clock reading>.jsonl]. *)
Theorem collect_file_name_per_save (args g : Args) (futs : list Future) (st : State) :
  st_global_args st = Some g ->
  existsb (String.eqb (report_to g)) (st_dirs st) = true ->
  w_unwritable w = [] ->
  (forall r, In r (returned_reports futs) -> examples r <> []) ->
  exists st' new,
    collect args futs w st = (inr tt, st') /\
    st_writes st' = st_writes st ++ new /\
    map fst new =
      map (fun k => mkPath (report_to g) (report_file_name (w_clock w (st_ticks st + k)%nat)))
          (seq 0 (List.length (returned_reports futs))).
Proof.
  intros Hg Hdir Hun Hne.
  destruct (collect_all_saved args g futs st Hg Hdir Hun Hne) as [st' [new [Hc [Hw [Hmap _]]]]].
  exists st', new. repeat split; try assumption.
  rewrite <- saved_by_collect_paths, <- Hmap, map_map. reflexivity.
Qed.

End Collecting.

(** ** The order of [as_completed] over finished futures *)

Section SetOrder.

Definition slot_is (i : nat) (f : Future) : bool := (slot f =? i)%nat.

Lemma slot_lt (f : Future) : (slot f < 8)%nat.
Proof.
  unfold slot, set_mask.
  change 7%Z with (Z.ones 3). rewrite Z.land_ones by lia.
  pose proof (Z.mod_pos_bound (hash_pointer (fut_addr f)) (2 ^ 3)) as H.
  change (2 ^ 3)%Z with 8%Z in *. lia.
Qed.

Lemma set_add_fresh (t : Table) (f : Future) :
  t (slot f) = None -> set_add t f = table_update t (slot f) f.
Proof.
  unfold set_add, slot. intros H. cbn [set_probe]. now rewrite H.
Qed.

Lemma find_app_one (p : Future -> bool) (l : list Future) (x : Future) :
  find p (l ++ [x]) = match find p l with Some y => Some y | None => if p x then Some x else None end.
Proof.
  induction l as [|y l IH]; simpl; [reflexivity|].
  destruct (p y); [reflexivity | exact IH].
Qed.

Lemma find_app (p : Future -> bool) (l1 l2 : list Future) :
  find p (l1 ++ l2) = match find p l1 with Some y => Some y | None => find p l2 end.
Proof.
  induction l1 as [|y l IH]; simpl; [reflexivity|].
  destruct (p y); [reflexivity | exact IH].
Qed.

Lemma find_slot_absent (l : list Future) (i : nat) :
  ~ In i (map slot l) -> find (slot_is i) l = None.
Proof.
  intros Hn. destruct (find (slot_is i) l) as [g|] eqn:Hf; [|reflexivity].
  apply find_some in Hf as [Hg Hs]. unfold slot_is in Hs. apply Nat.eqb_eq in Hs.
  exfalso. apply Hn. subst i. now apply in_map.
Qed.

(** With pairwise distinct slots every insertion lands in its own slot. *)
Lemma set_of_list_distinct (l : list Future) :
  NoDup (map slot l) -> forall i, set_of_list l i = find (slot_is i) l.
Proof.
  induction l as [|x l IH] using rev_ind; intros Hnd i; [reflexivity|].
  rewrite map_app in Hnd. simpl in Hnd.
  assert (Hl : NoDup (map slot l)) by (eapply NoDup_app_remove_r; eauto).
  assert (Hx : ~ In (slot x) (map slot l)).
  { intro H. apply (NoDup_remove_2 _ [] _ Hnd). now rewrite app_nil_r. }
  unfold set_of_list. rewrite fold_left_app. simpl. fold (set_of_list l).
  rewrite set_add_fresh by (rewrite IH by exact Hl; now apply find_slot_absent).
  unfold table_update. rewrite find_app_one.
  destruct (Nat.eqb_spec i (slot x)) as [->|Hne].
  - rewrite find_slot_absent by exact Hx. unfold slot_is. now rewrite Nat.eqb_refl.
  - rewrite IH by exact Hl. destruct (find (slot_is i) l); [reflexivity|].
    unfold slot_is. destruct (Nat.eqb_spec (slot x) i); [congruence | reflexivity].
Qed.

Lemma set_iter_distinct (l : list Future) :
  NoDup (map slot l) -> set_iter (set_of_list l) = by_slot l.
Proof.
  intros Hnd. unfold set_iter, by_slot. apply flat_map_ext. intros i.
  now rewrite set_of_list_distinct.
Qed.

Definition by_indices (fs : list Future) (is : list nat) : list Future :=
  flat_map (fun i => match find (slot_is i) fs with Some f => [f] | None => [] end) is.

Lemma by_indices_slots (fs : list Future) (is : list nat) (g : Future) :
  In g (by_indices fs is) -> In (slot g) is /\ In g fs.
Proof.
  unfold by_indices. intros H. apply in_flat_map in H as [i [Hi Hg]].
  destruct (find (slot_is i) fs) as [g'|] eqn:Hf; [|destruct Hg].
  destruct Hg as [<-|[]]. apply find_some in Hf as [Hin Hs].
  unfold slot_is in Hs. apply Nat.eqb_eq in Hs. subst i. now split.
Qed.

Lemma by_indices_nodup (fs : list Future) (is : list nat) :
  NoDup is -> NoDup (map slot (by_indices fs is)).
Proof.
  induction is as [|i is IH]; intros Hnd; simpl; [constructor|].
  inversion Hnd as [|? ? Hi Hnd']; subst.
  destruct (find (slot_is i) fs) as [g|] eqn:Hf; simpl; [|now apply IH].
  apply find_some in Hf as [_ Hs]. unfold slot_is in Hs. apply Nat.eqb_eq in Hs.
  constructor; [|now apply IH].
  rewrite Hs. intros Hin. apply in_map_iff in Hin as [g' [Hsg Hg']].
  apply by_indices_slots in Hg' as [Hs' _]. congruence.
Qed.

Lemma by_indices_find (fs : list Future) (is : list nat) (j : nat) :
  NoDup is -> In j is -> find (slot_is j) (by_indices fs is) = find (slot_is j) fs.
Proof.
  induction is as [|i is IH]; intros Hnd Hj; [destruct Hj|].
  inversion Hnd as [|? ? Hi Hnd']; subst. simpl. rewrite find_app.
  destruct (find (slot_is i) fs) as [g|] eqn:Hf.
  - pose proof Hf as Hf'. apply find_some in Hf' as [_ Hs].
    unfold slot_is in Hs. apply Nat.eqb_eq in Hs. simpl.
    destruct Hj as [->|Hj].
    + unfold slot_is at 1. rewrite Hs, Nat.eqb_refl. now symmetry.
    + unfold slot_is at 1. destruct (Nat.eqb_spec (slot g) j) as [E|E].
      * exfalso. apply Hi. congruence.
      * now apply IH.
  - simpl. destruct Hj as [->|Hj]; [|now apply IH].
    rewrite Hf. apply find_slot_absent. intros Hin.
    apply in_map_iff in Hin as [g [Hsg Hg]].
    apply by_indices_slots in Hg as [Hs _]. congruence.
Qed.

Lemma flat_map_ext_on {A C : Type} (f g : A -> list C) (l : list A) :
  (forall x, In x l -> f x = g x) -> flat_map f l = flat_map g l.
Proof.
  induction l as [|x l IH]; intros H; simpl; [reflexivity|].
  rewrite H by (now left). f_equal. apply IH. intros y Hy. apply H. now right.
Qed.

Lemma by_slot_idem (fs : list Future) : by_slot (by_slot fs) = by_slot fs.
Proof.
  unfold by_slot. apply flat_map_ext_on. intros i Hi.
  pose proof (by_indices_find fs (seq 0 8) i (seq_NoDup 8 0) Hi) as H.
  unfold by_indices, slot_is in H. cbv beta in H. now rewrite H.
Qed.

Lemma nodup_map_inj (fs : list Future) (a b : Future) :
  NoDup (map slot fs) -> In a fs -> In b fs -> slot a = slot b -> a = b.
Proof.
  induction fs as [|x fs IH]; intros Hnd Ha Hb Hab; [destruct Ha|].
  inversion Hnd as [|? ? Hx Hnd']; subst.
  destruct Ha as [<-|Ha], Hb as [<-|Hb]; try reflexivity.
  - exfalso. apply Hx. rewrite Hab. now apply in_map.
  - exfalso. apply Hx. rewrite <- Hab. now apply in_map.
  - now apply IH.
Qed.

Lemma by_slot_perm (fs : list Future) :
  NoDup (map slot fs) -> Permutation (by_slot fs) fs.
Proof.
  intros Hnd. apply NoDup_Permutation.
  - apply (NoDup_map_inv slot). apply by_indices_nodup, seq_NoDup.
  - exact (NoDup_map_inv slot fs Hnd).
  - intros g. split; intros Hg.
    + now apply (by_indices_slots fs (seq 0 8)).
    + unfold by_slot. apply in_flat_map. exists (slot g). split.
      * apply in_seq. pose proof (slot_lt g). lia.
      * destruct (find (fun f => (slot f =? slot g)%nat) fs) as [g'|] eqn:Hf.
        -- apply find_some in Hf as [Hg' Hs]. apply Nat.eqb_eq in Hs.
           left. now apply (nodup_map_inj fs).
        -- exfalso. apply (find_none _ _ Hf) in Hg. now rewrite Nat.eqb_refl in Hg.
Qed.

End SetOrder.

(** ** Concrete runs of [main] *)

Section DemoRuns.

(** C1 (counterexample): one run of [main] whose two saves happen one
    second apart appends its two reports to two different files. *)
Lemma one_run_two_report_files :
  let '(res, st') := main demo_args (demo_world (Returned (one_example_report "newt")) []) demo_state in
  res = inr tt /\
  map (fun pr => path_str (fst pr)) (st_writes st') =
    ["./reports/1700000000.jsonl"; "./reports/1700000001.jsonl"].
Proof. vm_compute. split; reflexivity. Qed.

(** C4 (counterexample): with the in-process executor, NeWT is submitted
    before KABR, but KABR's report is collected and saved first. *)
Lemma sync_run_collects_out_of_order :
  let '(res, st') := main demo_args (demo_world (Returned (one_example_report "newt")) []) demo_state in
  res = inr tt /\
  st_events st' = [EvLoadBackbone "open-clip" "RN50/openai"; EvSubmit Newt; EvSubmit Kabr] /\
  map (fun pr => name (rec_report (snd pr))) (st_writes st') = ["kabr"; "newt"].
Proof. vm_compute. repeat split; reflexivity. Qed.

(** C5 (counterexample): NeWT returns a report with no examples; [main]
    logs no job failure for it, whatever aggregating an empty set does.
    If that raises, the run crashes out of the collection loop; if it
    returns values (here 0 for the mean and both bounds, standing for
    NumPy's NaN), the empty report is persisted next to KABR's. *)
Lemma empty_report_not_treated_as_failure :
  (let '(res, st') := main demo_args (demo_world (Returned (mkReport "newt" [] [])) []) demo_state in
   res = inl AggregationError /\ log_warnings (st_log st') = []) /\
  (let '(res, st') :=
     main demo_args
       (with_empty_aggregation (demo_world (Returned (mkReport "newt" [] [])) [])
          (Some 0) (Some (0, 0))) demo_state in
   res = inr tt /\ log_warnings (st_log st') = [] /\
   map (fun pr => name (rec_report (snd pr))) (st_writes st') = ["kabr"; "newt"]).
Proof. vm_compute. repeat split; reflexivity. Qed.

(** C6 (counterexample): the first save's file refuses the write; [main]
    raises, and the NeWT report, still to be collected, is never saved. *)
Lemma refused_write_aborts_run :
  let '(res, st') :=
    main demo_args
      (demo_world (Returned (one_example_report "newt"))
         [mkPath "./reports" "1700000000.jsonl"]) demo_state in
  res = inl (OSError "./reports/1700000000.jsonl") /\ st_writes st' = [].
Proof. vm_compute. split; reflexivity. Qed.

End DemoRuns.

(** ** Failures in the collection loop and before dispatch *)

Section Failures.

Variable w : World.

(** C5 (amended): [main] does not check a returned report for emptiness.
    A report with no examples is passed to [save] like any other returned
    report, and no job failure is logged for it.  What happens next depends
    on aggregating an empty example set, which the spec leaves undefined:
    if that raises, the exception leaves the collection loop at once, with
    nothing written or logged and the remaining futures not collected; if
    it returns values, the report's record is appended to the report file,
    still with no failure logged, and the loop goes on with the rest. *)
Theorem collect_passes_empty_report_to_save (args g : Args) (f : Future) (rest : list Future)
  (r : BenchmarkReport) (st : State) :
  fut_outcome f = Returned r -> examples r = [] ->
  collect args (f :: rest) w st = (_ <- save args r ;; collect args rest) w st /\
  ((w_empty_mean w = None \/ w_empty_ci w = None) ->
     collect args (f :: rest) w st = (inl AggregationError, st)) /\
  (forall m lo hi,
     w_empty_mean w = Some m -> w_empty_ci w = Some (lo, hi) ->
     st_global_args st = Some g ->
     existsb (String.eqb (report_to g)) (st_dirs st) = true ->
     w_unwritable w = [] ->
     exists st1,
       save args r w st = (inr tt, st1) /\
       st_writes st1 = st_writes st ++
         [(mkPath (report_to g) (report_file_name (w_clock w (st_ticks st))),
           mkRecord r args m lo hi)] /\
       log_warnings (st_log st1) = log_warnings (st_log st) /\
       collect args (f :: rest) w st = collect args rest w st1).
Proof.
  intros Ho He.
  assert (Hc : collect args (f :: rest) w st = (_ <- save args r ;; collect args rest) w st)
    by (simpl; rewrite Ho; reflexivity).
  split; [exact Hc|]. split.
  - intros Hn. rewrite Hc. unfold bind at 1.
    unfold save, bind, mean_score, confidence_interval, mean_score_of, ci_of.
    rewrite He. destruct Hn as [Hn|Hn]; rewrite Hn; [reflexivity|].
    destruct (w_empty_mean w); reflexivity.
  - intros m lo hi Hm Hci Hg Hdir Hun.
    destruct (log_splits_ok w (model_ckpt args) (name r) (splits r)
                (add_log (LogMean (model_ckpt args) (name r) m)
                   (add_write (mkPath (report_to g) (report_file_name (w_clock w (st_ticks st))),
                               mkRecord r args m lo hi) (tick st))))
      as [st1 [Heq [_ [_ [_ [Hw Hl]]]]]].
    assert (Hs : save args r w st = (inr tt, st1)).
    { unfold save, bind, mean_score, confidence_interval, mean_score_of, ci_of.
      rewrite He, Hm, Hci. simpl.
      unfold report_path, bind, time_time, global_args. simpl. rewrite Hg.
      unfold append_line, ret. simpl. rewrite Hdir, Hun. simpl.
      unfold log, modify. exact Heq. }
    exists st1. split; [exact Hs|]. split; [|split].
    + rewrite Hw. reflexivity.
    + rewrite Hl. simpl. rewrite log_warnings_app. simpl. apply app_nil_r.
    + rewrite Hc. unfold bind at 1. rewrite Hs. reflexivity.
Qed.

(** C6 (amended): a write refused while saving one report is raised out of
    [save] and out of the collection loop: the run stops there, with only
    the clock reading of that save consumed, and the remaining futures are
    neither collected nor saved. *)
Theorem collect_stops_at_refused_write (args g : Args) (f : Future) (rest : list Future)
  (r : BenchmarkReport) (st : State) :
  fut_outcome f = Returned r -> examples r <> [] ->
  st_global_args st = Some g ->
  existsb (String.eqb (report_to g)) (st_dirs st) = true ->
  In (mkPath (report_to g) (report_file_name (w_clock w (st_ticks st)))) (w_unwritable w) ->
  collect args (f :: rest) w st =
    (inl (OSError (path_str (mkPath (report_to g) (report_file_name (w_clock w (st_ticks st)))))),
     tick st).
Proof.
  intros Ho Hne Hg Hdir Hin. simpl. rewrite Ho.
  destruct (aggregation_nonempty w r Hne) as [Hm [lo [hi Hci]]].
  assert (Hun : existsb (path_eqb (mkPath (report_to g) (report_file_name (w_clock w (st_ticks st)))))
                  (w_unwritable w) = true).
  { apply existsb_exists. eexists; split; [exact Hin|].
    unfold path_eqb. simpl. now rewrite !String.eqb_refl. }
  unfold bind at 1. unfold save, bind, mean_score, confidence_interval. rewrite Hm, Hci. simpl.
  unfold report_path, bind, time_time, global_args. simpl. rewrite Hg.
  unfold append_line, ret. simpl. rewrite Hdir, Hun. reflexivity.
Qed.

(** C8: asking for the [slurm] backend raises [NotImplementedError] as the
    first step of [main], leaving the state untouched: no backbone loaded,
    no job submitted, nothing written. *)
Theorem main_slurm_fails_before_dispatch (args : Args) (st : State) :
  jobs args = Slurm ->
  main args w st = (inl (NotImplementedError "submitit not tested yet!"), st).
Proof.
  intros Hj. unfold main, bind, choose_executor. rewrite Hj. reflexivity.
Qed.

(** C9: [Args.report_path] ignores both its receiver and its report: the
    path comes from the module-global [args] and the clock.  So a
    successful [save] with any configuration [a] appends, under the global
    [args]'s [report_to], a record whose [run_args] is [a]. *)
Theorem report_path_uses_global_args (a a' : Args) (r r' : BenchmarkReport) (g : Args)
  (st : State) :
  st_global_args st = Some g ->
  report_path a r w st = report_path a' r' w st /\
  report_path a r w st =
    (inr (mkPath (report_to g) (report_file_name (w_clock w (st_ticks st)))), tick st) /\
  (forall st', save a r w st = (inr tt, st') ->
     exists rec,
       st_writes st' = st_writes st ++
         [(mkPath (report_to g) (report_file_name (w_clock w (st_ticks st))), rec)] /\
       rec_run_args rec = a).
Proof.
  intros Hg.
  assert (Hp : forall (b : Args) (q : BenchmarkReport), report_path b q w st =
            (inr (mkPath (report_to g) (report_file_name (w_clock w (st_ticks st)))), tick st)).
  { intros b q. unfold report_path, bind, time_time, global_args, ret. simpl. now rewrite Hg. }
  split; [now rewrite !Hp|]. split; [apply Hp|].
  intros st' Hs. revert Hs.
  unfold save, bind, from_option, mean_score, confidence_interval.
  destruct (mean_score_of w r) as [m|]; [|discriminate].
  destruct (ci_of w r) as [[lo hi]|]; [|discriminate].
  simpl. rewrite Hp.
  unfold append_line, ret. simpl.
  destruct (negb (existsb (String.eqb (report_to g)) (st_dirs st))); [discriminate|].
  destruct (existsb _ (w_unwritable w)); [discriminate|].
  unfold log, modify. simpl.
  destruct (log_splits_ok w (model_ckpt a) (name r) (splits r)
              (add_log (LogMean (model_ckpt a) (name r) m)
                 (add_write (mkPath (report_to g) (report_file_name (w_clock w (st_ticks st))),
                             mkRecord r a m lo hi) (tick st))))
    as [st2 [Heq [_ [_ [_ [Hw _]]]]]].
  rewrite Heq. intros H. injection H as <-.
  exists (mkRecord r a m lo hi). split; [exact Hw | reflexivity].
Qed.

(** C10: importing [biobench] registers exactly ["timm-vit"] and
    ["open-clip"], while the default [model_org] is ["open_clip"]: it is not
    registered, and [main] on the default configuration fails to resolve
    its backbone. *)
Theorem default_model_org_unregistered (st : State) :
  st_registry st = [] ->
  let '(res, st1) := biobench_init w st in
  res = inr tt /\
  map fst (st_registry st1) = ["timm-vit"; "open-clip"] /\
  ~ In (model_org default_args) (map fst (st_registry st1)) /\
  fst (main default_args w st1) = inl (UnknownBackboneError "open_clip").
Proof.
  intros Hr. unfold biobench_init, register_vision_backbone, bind. rewrite Hr. simpl.
  repeat split.
  - simpl. intros [H|[H|[]]]; discriminate.
Qed.

End Failures.

(** ** Witnesses: each hypothesis-bearing theorem at a concrete input *)

Section Witnesses.

Lemma collect_survives_one_failed_job_witness :
  exists st' new,
    collect demo_args (demo_futures (Raised (TaskError "boom")))
      (demo_world (Raised (TaskError "boom")) []) demo_ready_state = (inr tt, st') /\
    st_writes st' = st_writes demo_ready_state ++ new /\
    Permutation (map (fun pr => rec_report (snd pr)) new)
      (returned_reports (demo_futures (Raised (TaskError "boom")))) /\
    List.length new = (List.length (demo_futures (Raised (TaskError "boom"))) - 1)%nat /\
    log_warnings (st_log st') = log_warnings (st_log demo_ready_state) ++ [TaskError "boom"].
Proof.
  apply (collect_survives_one_failed_job (demo_world (Raised (TaskError "boom")) [])
           demo_args demo_args (demo_futures (Raised (TaskError "boom")))
           (demo_futures (Raised (TaskError "boom"))) demo_ready_state (TaskError "boom")).
  - reflexivity.
  - reflexivity.
  - simpl. intros r [<-|[]]. discriminate.
  - reflexivity.
  - reflexivity.
  - reflexivity.
Defined.

Lemma collect_file_name_per_save_witness :
  exists st' new,
    collect demo_args (demo_futures (Returned (one_example_report "newt")))
      (demo_world (Returned (one_example_report "newt")) []) demo_ready_state = (inr tt, st') /\
    st_writes st' = st_writes demo_ready_state ++ new /\
    map fst new =
      map (fun k => mkPath (report_to demo_args)
                      (report_file_name (w_clock (demo_world (Returned (one_example_report "newt")) [])
                                           (st_ticks demo_ready_state + k)%nat)))
          (seq 0 (List.length (returned_reports (demo_futures (Returned (one_example_report "newt")))))).
Proof.
  apply (collect_file_name_per_save (demo_world (Returned (one_example_report "newt")) [])
           demo_args demo_args (demo_futures (Returned (one_example_report "newt")))
           demo_ready_state).
  - reflexivity.
  - reflexivity.
  - reflexivity.
  - simpl. intros r [<-|[<-|[]]]; discriminate.
Defined.

Lemma collect_passes_empty_report_to_save_witness :
  let w0 := with_empty_aggregation (demo_world (Returned (mkReport "newt" [] [])) [])
              (Some 0) (Some (0, 0)) in
  let r := mkReport "newt" [] [] in
  let f := mkFuture 16 (Returned r) in
  fut_outcome f = Returned r /\ examples r = [] /\
  exists st1,
    save demo_args r w0 demo_ready_state = (inr tt, st1) /\
    st_writes st1 =
      [(mkPath default_report_to (report_file_name (w_clock w0 0)), mkRecord r demo_args 0 0 0)] /\
    log_warnings (st_log st1) = [] /\
    collect demo_args [f] w0 demo_ready_state = collect demo_args [] w0 st1.
Proof.
  intros w0 r f. split; [reflexivity|]. split; [reflexivity|].
  destruct (collect_passes_empty_report_to_save w0 demo_args demo_args f [] r demo_ready_state
              eq_refl eq_refl) as [_ [_ H]].
  exact (H 0 0 0 eq_refl eq_refl eq_refl eq_refl eq_refl).
Defined.

Lemma collect_stops_at_refused_write_witness :
  collect demo_args (demo_futures (Returned (one_example_report "newt")))
    (demo_world (Returned (one_example_report "newt")) [mkPath "./reports" "1700000000.jsonl"])
    demo_ready_state =
  (inl (OSError (path_str (mkPath (report_to demo_args)
     (report_file_name (w_clock (demo_world (Returned (one_example_report "newt"))
                                   [mkPath "./reports" "1700000000.jsonl"])
                                (st_ticks demo_ready_state)))))),
   tick demo_ready_state).
Proof.
  apply (collect_stops_at_refused_write
           (demo_world (Returned (one_example_report "newt")) [mkPath "./reports" "1700000000.jsonl"])
           demo_args demo_args (mkFuture 16 (Returned (one_example_report "newt")))
           [mkFuture 32 (Returned (one_example_report "kabr"))]
           (one_example_report "newt") demo_ready_state).
  - reflexivity.
  - discriminate.
  - reflexivity.
  - reflexivity.
  - vm_compute. left. reflexivity.
Defined.

Lemma main_slurm_fails_before_dispatch_witness :
  main slurm_args (demo_world (Returned (one_example_report "newt")) []) demo_state =
  (inl (NotImplementedError "submitit not tested yet!"), demo_state).
Proof.
  apply (main_slurm_fails_before_dispatch (demo_world (Returned (one_example_report "newt")) [])
           slurm_args demo_state).
  reflexivity.
Defined.

Lemma report_path_uses_global_args_witness :
  let st := mkState (Some default_args) 0 0 [default_report_to] [] [] [] [] in
  let w := demo_world (Returned (one_example_report "newt")) [] in
  report_path demo_args (one_example_report "newt") w st =
    report_path slurm_args (one_example_report "kabr") w st /\
  report_path demo_args (one_example_report "newt") w st =
    (inr (mkPath (report_to default_args) (report_file_name (w_clock w (st_ticks st)))), tick st) /\
  (forall st', save demo_args (one_example_report "newt") w st = (inr tt, st') ->
     exists rec,
       st_writes st' = st_writes st ++
         [(mkPath (report_to default_args) (report_file_name (w_clock w (st_ticks st))), rec)] /\
       rec_run_args rec = demo_args).
Proof.
  intros st w.
  apply (report_path_uses_global_args w demo_args slurm_args (one_example_report "newt")
           (one_example_report "kabr") default_args st).
  reflexivity.
Defined.

Lemma default_model_org_unregistered_witness :
  let st := mkState None 0 0 [] [] [] [] [] in
  let w := demo_world (Returned (one_example_report "newt")) [] in
  let '(res, st1) := biobench_init w st in
  res = inr tt /\
  map fst (st_registry st1) = ["timm-vit"; "open-clip"] /\
  ~ In (model_org default_args) (map fst (st_registry st1)) /\
  fst (main default_args w st1) = inl (UnknownBackboneError "open_clip").
Proof.
  intros st w.
  apply (default_model_org_unregistered w st).
  reflexivity.
Defined.

End Witnesses.

(* ================================================================== *)
(** * More of the orchestrator: sets of futures, [save], [main], the
      script entry and the notebook's error bars *)

Section SetTable.

Lemma land_mask_range (x : Z) : (0 <= Z.land x set_mask < 8)%Z.
Proof.
  unfold set_mask. change 7%Z with (Z.ones 3).
  rewrite Z.land_ones by lia.
  pose proof (Z.mod_pos_bound x (2 ^ 3)). change (2 ^ 3)%Z with 8%Z in *. lia.
Qed.

Lemma probe_unperturbed (n fuel : nat) (t : Table) (i : Z) (f : Future) :
  (n <= fuel)%nat -> (0 <= i < 8)%Z ->
  (forall j g, t j = Some g -> fut_addr g <> fut_addr f) ->
  (exists k, (k < n)%nat /\
     t (Z.to_nat (Nat.iter k (fun x => Z.land (x * 5 + 1) set_mask) i)) = None) ->
  exists j, (j < 8)%nat /\ t j = None /\ set_probe fuel t i 0 f = table_update t j f.
Proof.
  revert fuel i. induction n as [|n IH]; intros fuel i Hn Hi Hab [k [Hk Hempty]]; [lia|].
  destruct fuel as [|fuel]; [lia|]. cbn [set_probe].
  destruct (t (Z.to_nat i)) as [g|] eqn:Hti.
  - rewrite (proj2 (Z.eqb_neq _ _) (Hab _ _ Hti)).
    replace (Z.shiftr 0 5) with 0%Z by reflexivity. rewrite Z.add_0_r.
    destruct k as [|k]; [simpl in Hempty; congruence|].
    apply IH; [lia | apply land_mask_range | exact Hab |].
    exists k. split; [lia|]. now rewrite Nat.iter_succ_r in Hempty.
  - exists (Z.to_nat i). repeat split; [lia | assumption].
Qed.

Lemma probe_orbit_covers (i : Z) (j : nat) :
  (0 <= i < 8)%Z -> (j < 8)%nat ->
  exists k, (k < 8)%nat /\
    Z.to_nat (Nat.iter k (fun x => Z.land (x * 5 + 1) set_mask) i) = j.
Proof.
  intros Hi Hj.
  assert (Hc : i = 0%Z \/ i = 1%Z \/ i = 2%Z \/ i = 3%Z \/ i = 4%Z \/ i = 5%Z \/ i = 6%Z \/ i = 7%Z)
    by lia.
  do 8 (destruct j as [|j];
    [ destruct Hc as [-> | [-> | [-> | [-> | [-> | [-> | [-> | ->]]]]]]];
      first [ exists 0%nat; split; [lia | reflexivity]
            | exists 1%nat; split; [lia | reflexivity]
            | exists 2%nat; split; [lia | reflexivity]
            | exists 3%nat; split; [lia | reflexivity]
            | exists 4%nat; split; [lia | reflexivity]
            | exists 5%nat; split; [lia | reflexivity]
            | exists 6%nat; split; [lia | reflexivity]
            | exists 7%nat; split; [lia | reflexivity] ] |]).
  lia.
Qed.

Lemma probe_finds_free_slot (m fuel : nat) (t : Table) (i p : Z) (f : Future) :
  (m + 8 <= fuel)%nat -> (0 <= i < 8)%Z -> (0 <= p < 2 ^ (5 * Z.of_nat m))%Z ->
  (forall j g, t j = Some g -> fut_addr g <> fut_addr f) ->
  (exists j, (j < 8)%nat /\ t j = None) ->
  exists j, (j < 8)%nat /\ t j = None /\ set_probe fuel t i p f = table_update t j f.
Proof.
  revert fuel i p. induction m as [|m IH]; intros fuel i p Hfuel Hi Hp Hab [j0 [Hj0 Hn0]].
  - assert (p = 0%Z) by (simpl in Hp; lia). subst p.
    destruct (probe_orbit_covers i j0 Hi Hj0) as [k [Hk Hkj]].
    apply (probe_unperturbed 8 fuel); [lia | exact Hi | exact Hab |].
    exists k. split; [exact Hk|]. now rewrite Hkj.
  - destruct fuel as [|fuel]; [lia|]. cbn [set_probe].
    destruct (t (Z.to_nat i)) as [g|] eqn:Hti.
    + rewrite (proj2 (Z.eqb_neq _ _) (Hab _ _ Hti)).
      apply IH; [lia | apply land_mask_range | | exact Hab | eauto].
      rewrite Z.shiftr_div_pow2 by lia. split; [apply Z.div_pos; lia|].
      apply Z.div_lt_upper_bound; [lia|].
      replace (5 * Z.of_nat (S m))%Z with (5 + 5 * Z.of_nat m)%Z in Hp by lia.
      rewrite Z.pow_add_r in Hp by lia. lia.
    + exists (Z.to_nat i). repeat split; [lia | assumption].
Qed.

Lemma lor_below_pow2 (x y n : Z) :
  (0 <= x < 2 ^ n)%Z -> (0 <= y < 2 ^ n)%Z -> (0 <= Z.lor x y < 2 ^ n)%Z.
Proof.
  intros Hx Hy. assert (Hn : (0 <= n)%Z).
  { destruct (Z.neg_nonneg_cases n) as [Hn|Hn]; [|exact Hn].
    rewrite Z.pow_neg_r in Hx by exact Hn. lia. }
  split; [apply Z.lor_nonneg; lia|].
  destruct (Z.eq_dec (Z.lor x y) 0) as [H0|H0]; [rewrite H0; apply Z.pow_pos_nonneg; lia|].
  apply Z.log2_lt_pow2; [pose proof (Z.lor_nonneg x y); lia|].
  rewrite Z.log2_lor by lia.
  assert (Hpos : (0 < n)%Z).
  { destruct (Z.eq_dec n 0) as [->|]; [|lia].
    simpl in Hx, Hy. assert (x = 0%Z) by lia. assert (y = 0%Z) by lia. subst.
    contradiction. }
  assert (Hl : forall z, (0 <= z < 2 ^ n)%Z -> (Z.log2 z < n)%Z).
  { intros z Hz. destruct (Z.eq_dec z 0) as [->|Hz0].
    - simpl. lia.
    - apply Z.log2_lt_pow2; lia. }
  apply Z.max_lub_lt; apply Hl; assumption.
Qed.

Lemma hash_pointer_range (a : Z) :
  (0 <= a < word64)%Z -> (0 <= hash_pointer a < 2 ^ (5 * Z.of_nat 13))%Z.
Proof.
  intros Ha. unfold hash_pointer.
  assert (Hy : (0 <= Z.lor (Z.shiftr a 4) (Z.land (Z.shiftl a 60) (word64 - 1)) < word64)%Z).
  { apply lor_below_pow2.
    - rewrite Z.shiftr_div_pow2 by lia. unfold word64 in *. split.
      + apply Z.div_pos; lia.
      + apply Z.div_lt_upper_bound; lia.
    - unfold word64. change (2 ^ 64 - 1)%Z with (Z.ones 64).
      rewrite Z.land_ones by lia. apply Z.mod_pos_bound. lia. }
  unfold word64 in *.
  destruct (_ =? _)%Z; change (5 * Z.of_nat 13)%Z with 65%Z;
    rewrite Z.pow_succ_r with (m := 64%Z) by lia; lia.
Qed.

Lemma set_add_free_slot (t : Table) (f : Future) :
  (0 <= fut_addr f < word64)%Z ->
  (forall j g, t j = Some g -> fut_addr g <> fut_addr f) ->
  (exists j, (j < 8)%nat /\ t j = None) ->
  exists j, (j < 8)%nat /\ t j = None /\ set_add t f = table_update t j f.
Proof.
  intros Ha Hab Hfree. unfold set_add.
  apply (probe_finds_free_slot 13 64); [lia | apply land_mask_range | | exact Hab | exact Hfree].
  now apply hash_pointer_range.
Qed.

Lemma set_iter_in (t : Table) (g : Future) :
  In g (set_iter t) <-> exists j, (j < 8)%nat /\ t j = Some g.
Proof.
  unfold set_iter. rewrite in_flat_map. split.
  - intros [j [Hj Hg]]. apply in_seq in Hj.
    destruct (t j) as [g'|] eqn:Ht; simpl in Hg; [|contradiction].
    destruct Hg as [<-|[]]. exists j. split; [lia | exact Ht].
  - intros [j [Hj Ht]]. exists j. split; [apply in_seq; lia|]. rewrite Ht. now left.
Qed.

Lemma slots_nodup (t : Table) (is : list nat) :
  NoDup is -> (forall j1 j2 g, t j1 = Some g -> t j2 = Some g -> j1 = j2) ->
  NoDup (flat_map (fun i => match t i with Some f => [f] | None => [] end) is).
Proof.
  intros Hnd Hinj. induction Hnd as [|i is Hi Hnd IH]; simpl; [constructor|].
  destruct (t i) as [g|] eqn:Ht; simpl; [|exact IH].
  constructor; [|exact IH].
  rewrite in_flat_map. intros [j [Hj Hg]].
  destruct (t j) as [g'|] eqn:Htj; simpl in Hg; [|contradiction].
  destruct Hg as [Heq|[]]; subst. apply Hi. now rewrite (Hinj i j _ Ht Htj).
Qed.

Lemma slots_all_full (t : Table) (is : list nat) :
  (forall i, In i is -> t i <> None) ->
  List.length (flat_map (fun i => match t i with Some f => [f] | None => [] end) is) =
  List.length is.
Proof.
  induction is as [|i is IH]; intros Hfull; [reflexivity|]. simpl.
  destruct (t i) as [g|] eqn:Ht.
  - simpl. f_equal. apply IH. intros j Hj. apply Hfull. now right.
  - exfalso. apply (Hfull i); [now left | exact Ht].
Qed.

Lemma table_holds_perm (t : Table) (l : list Future) :
  table_holds t l -> NoDup l -> Permutation (set_iter t) l.
Proof.
  intros [Hin [Hall Hinj]] Hnd. apply NoDup_Permutation.
  - apply slots_nodup; [apply seq_NoDup | exact Hinj].
  - exact Hnd.
  - intros g. rewrite set_iter_in. split.
    + intros [j [_ Ht]]. exact (proj2 (Hin j g Ht)).
    + intros Hg. destruct (Hall g Hg) as [j Ht]. exists j. split; [|exact Ht].
      exact (proj1 (Hin j g Ht)).
Qed.

Lemma table_holds_free_slot (t : Table) (l : list Future) :
  table_holds t l -> (List.length l < 8)%nat -> exists j, (j < 8)%nat /\ t j = None.
Proof.
  intros [Hin [Hall Hinj]] Hlen.
  destruct (existsb (fun j => match t j with None => true | Some _ => false end) (seq 0 8))
    eqn:E.
  - apply existsb_exists in E as [j [Hj Hn]]. apply in_seq in Hj.
    exists j. split; [lia|]. destruct (t j); [discriminate | reflexivity].
  - exfalso.
    assert (Hfull : forall i, In i (seq 0 8) -> t i <> None).
    { intros i Hi Hn. assert (Ht : existsb (fun j => match t j with None => true
                                                    | Some _ => false end) (seq 0 8) = true)
        by (apply existsb_exists; exists i; now rewrite Hn).
      congruence. }
    pose proof (slots_all_full t (seq 0 8) Hfull) as Hl. rewrite length_seq in Hl.
    assert (Hincl : incl (set_iter t) l).
    { intros g Hg. apply set_iter_in in Hg as [j [_ Ht]]. exact (proj2 (Hin j g Ht)). }
    pose proof (NoDup_incl_length (slots_nodup t (seq 0 8) (seq_NoDup 8 0) Hinj) Hincl).
    unfold set_iter in *. lia.
Qed.

Lemma table_holds_empty : table_holds table_empty [].
Proof. repeat split; intros; unfold table_empty in *; try discriminate; contradiction. Qed.

Lemma table_holds_add (t : Table) (l : list Future) (f : Future) (j : nat) :
  table_holds t l -> (forall g, In g l -> fut_addr g <> fut_addr f) ->
  (j < 8)%nat -> t j = None -> table_holds (table_update t j f) (l ++ [f]).
Proof.
  intros [Hin [Hall Hinj]] Hab Hj Hfree. unfold table_holds, table_update.
  split; [|split].
  - intros k g Hk. rewrite in_app_iff. destruct (k =? j)%nat eqn:E.
    + apply Nat.eqb_eq in E. injection Hk as <-. split; [lia|]. right. now left.
    + split; [exact (proj1 (Hin k g Hk)) | left; exact (proj2 (Hin k g Hk))].
  - intros g Hg. apply in_app_iff in Hg as [Hg|[<-|[]]].
    + destruct (Hall g Hg) as [k Hk]. exists k.
      destruct (k =? j)%nat eqn:E; [apply Nat.eqb_eq in E; subst; congruence | exact Hk].
    + exists j. now rewrite Nat.eqb_refl.
  - intros k1 k2 g H1 H2.
    destruct (k1 =? j)%nat eqn:E1, (k2 =? j)%nat eqn:E2;
      try (apply Nat.eqb_eq in E1); try (apply Nat.eqb_eq in E2).
    + congruence.
    + injection H1 as <-. exfalso. exact (Hab f (proj2 (Hin k2 f H2)) eq_refl).
    + injection H2 as <-. exfalso. exact (Hab f (proj2 (Hin k1 f H1)) eq_refl).
    + exact (Hinj k1 k2 g H1 H2).
Qed.

Lemma set_of_list_holds (l : list Future) :
  NoDup (map fut_addr l) -> (List.length l <= 8)%nat ->
  Forall (fun f => (0 <= fut_addr f < word64)%Z) l ->
  table_holds (set_of_list l) l.
Proof.
  induction l as [|x l IH] using rev_ind; intros Hnd Hlen Hrange.
  - exact table_holds_empty.
  - rewrite map_app in Hnd. rewrite length_app in Hlen. simpl in Hlen.
    apply Forall_app in Hrange as [Hrange Hx]. inversion Hx as [|? ? Hx' _]; subst.
    assert (Hholds : table_holds (set_of_list l) l)
      by (apply IH; [eapply NoDup_app_remove_r; eauto | lia | exact Hrange]).
    assert (Hab : forall g, In g l -> fut_addr g <> fut_addr x).
    { intros g Hg He. apply (NoDup_remove_2 _ _ _ Hnd). rewrite app_nil_r, <- He.
      now apply in_map. }
    unfold set_of_list. rewrite fold_left_app. simpl. fold (set_of_list l).
    destruct (set_add_free_slot (set_of_list l) x Hx'
                (fun j g Hj => Hab g (proj2 (proj1 Hholds j g Hj)))
                (table_holds_free_slot _ _ Hholds ltac:(lia)))
      as [j [Hj [Hfree ->]]].
    now apply table_holds_add.
Qed.

Lemma set_iter_of_list_perm (l : list Future) :
  NoDup (map fut_addr l) -> (List.length l <= 8)%nat ->
  Forall (fun f => (0 <= fut_addr f < word64)%Z) l ->
  Permutation (set_iter (set_of_list l)) l.
Proof.
  intros Hnd Hlen Hrange. apply table_holds_perm.
  - now apply set_of_list_holds.
  - exact (NoDup_map_inv _ _ Hnd).
Qed.

End SetTable.

Lemma as_completed_finished_permutes (fs : list Future) :
  NoDup (map fut_addr fs) -> (List.length fs <= 4)%nat ->
  Forall (fun f => (0 <= fut_addr f < word64)%Z) fs ->
  Permutation (as_completed_finished fs) fs.
Proof.
  intros Hnd Hlen Hrange. unfold as_completed_finished.
  pose proof (set_iter_of_list_perm fs Hnd ltac:(lia) Hrange) as H1.
  rewrite <- Permutation_rev. rewrite set_iter_of_list_perm; [exact H1 | | |].
  - apply (Permutation_NoDup (Permutation_map fut_addr (Permutation_sym H1)) Hnd).
  - rewrite (Permutation_length H1). lia.
  - rewrite Forall_forall in *. intros f Hf. apply Hrange.
    now apply (Permutation_in _ H1).
Qed.

(** C4 (amended): with the in-process executor every future is finished
    before collection starts, so [as_completed] yields them in the reverse
    of the iteration order of the set built from them, an order computed
    from their addresses by CPython's set probing, not the submission order.
    For the at most four jobs [main] submits, at distinct addresses, each
    future is yielded exactly once.  When their hash slots are pairwise
    distinct, they come out by decreasing slot, whatever the submission
    order. *)
Theorem as_completed_finished_by_slot (fs : list Future) :
  (NoDup (map fut_addr fs) -> (List.length fs <= 4)%nat ->
   Forall (fun f => (0 <= fut_addr f < word64)%Z) fs ->
   Permutation (as_completed_finished fs) fs) /\
  (NoDup (map slot fs) ->
   as_completed_finished fs = rev (by_slot fs) /\ Permutation (as_completed_finished fs) fs).
Proof.
  split; [exact (as_completed_finished_permutes fs)|].
  intros Hnd.
  assert (Heq : as_completed_finished fs = rev (by_slot fs)).
  { unfold as_completed_finished.
    rewrite (set_iter_distinct fs Hnd).
    rewrite set_iter_distinct by (apply by_indices_nodup, seq_NoDup).
    now rewrite by_slot_idem. }
  split; [exact Heq|].
  rewrite Heq, <- Permutation_rev. now apply by_slot_perm.
Qed.

Lemma as_completed_finished_by_slot_witness :
  Permutation (as_completed_finished (demo_futures (Returned (one_example_report "newt"))))
    (demo_futures (Returned (one_example_report "newt"))) /\
  as_completed_finished (demo_futures (Returned (one_example_report "newt"))) =
    rev (by_slot (demo_futures (Returned (one_example_report "newt")))).
Proof.
  destruct (as_completed_finished_by_slot (demo_futures (Returned (one_example_report "newt"))))
    as [Hp Hs].
  split.
  - apply Hp.
    + simpl. repeat constructor; simpl; intuition discriminate.
    + simpl. lia.
    + repeat constructor; simpl; unfold word64; lia.
  - apply Hs.
    assert (Hsl : map slot (demo_futures (Returned (one_example_report "newt"))) = [1%nat; 2%nat])
      by (vm_compute; reflexivity).
    rewrite Hsl. constructor.
    + simpl. intros [H|[]]. discriminate.
    + constructor; [intros []|constructor].
Defined.

Section MainRuns.

Variable w : World.

Lemma log_splits_eq (ck tk : string) (sp : list (string * Q)) (st : State) :
  log_splits ck tk sp w st =
  (inr tt, {| st_global_args := st_global_args st; st_ticks := st_ticks st;
              st_nalloc := st_nalloc st; st_dirs := st_dirs st;
              st_writes := st_writes st;
              st_log := st_log st ++ map (fun kv => LogSplit ck tk (fst kv) (snd kv)) sp;
              st_registry := st_registry st; st_events := st_events st |}).
Proof.
  revert st. induction sp as [|[key value] sp IH]; intros st.
  - destruct st. simpl. now rewrite app_nil_r.
  - simpl. unfold bind, log, modify. rewrite IH. simpl. now rewrite <- app_assoc.
Qed.

Lemma save_frame (args : Args) (r : BenchmarkReport) (st : State) :
  let st' := snd (save args r w st) in
  st_global_args st' = st_global_args st /\ st_nalloc st' = st_nalloc st /\
  st_dirs st' = st_dirs st /\ st_registry st' = st_registry st /\
  st_events st' = st_events st.
Proof.
  cbv [save bind from_option mean_score confidence_interval ret raise report_path time_time
       global_args append_line log modify].
  destruct (mean_score_of w r) as [m|]; [|simpl; auto].
  destruct (ci_of w r) as [[lo hi]|]; [|simpl; auto].
  simpl. destruct (st_global_args st) as [g|] eqn:Hg; [|simpl; auto].
  simpl. destruct (existsb (String.eqb (report_to g)) (st_dirs st)); [|simpl; auto].
  simpl. match goal with |- context [if existsb ?p (w_unwritable w) then _ else _] =>
    destruct (existsb p (w_unwritable w)) end; [simpl; auto|].
  try rewrite log_splits_eq; simpl; auto.
Qed.

Lemma collect_frame (args : Args) (fs : list Future) (st : State) :
  let st' := snd (collect args fs w st) in
  st_global_args st' = st_global_args st /\ st_nalloc st' = st_nalloc st /\
  st_dirs st' = st_dirs st /\ st_registry st' = st_registry st /\
  st_events st' = st_events st.
Proof.
  revert st. induction fs as [|f fs IH]; intros st; [simpl; auto|].
  simpl. destruct (fut_outcome f) as [r|e].
  - unfold bind. pose proof (save_frame args r st) as Hs. cbv zeta in Hs.
    destruct (save args r w st) as [[e|[]] st1]; simpl in Hs |- *; [tauto|].
    destruct Hs as [G1 [G2 [G3 [G4 G5]]]].
    destruct (IH st1) as [H1 [H2 [H3 [H4 H5]]]]. repeat split; congruence.
  - unfold bind, log, modify. exact (IH (add_log (LogWarning e) st)).
Qed.

Lemma alloc_all_frame (ts : list (Task * TaskArgs)) (st : State) :
  let st' := fold_left (fun s p => alloc_submit (fst p) s) ts st in
  st_global_args st' = st_global_args st /\ st_ticks st' = st_ticks st /\
  st_nalloc st' = (st_nalloc st + List.length ts)%nat /\
  st_dirs st' = st_dirs st /\ st_writes st' = st_writes st /\ st_log st' = st_log st /\
  st_registry st' = st_registry st /\
  st_events st' = st_events st ++ map (fun p => EvSubmit (fst p)) ts.
Proof.
  revert st. induction ts as [|p ts IH]; intros st.
  - simpl. rewrite Nat.add_0_r, app_nil_r. tauto.
  - simpl. destruct (IH (alloc_submit (fst p) st)) as [H1 [H2 [H3 [H4 [H5 [H6 [H7 H8]]]]]]].
    simpl in *. rewrite H8, <- app_assoc. repeat split; auto. lia.
Qed.

Lemma submit_returns (ex : Executor) (t : Task) (bb : Backbone) (ta : TaskArgs) (st : State) :
  escapes ex (w_benchmark w t bb ta) = false ->
  submit ex t bb ta w st =
    (inr (mkFuture (w_heap w (st_nalloc st)) (w_benchmark w t bb ta)), alloc_submit t st).
Proof.
  intros H. unfold submit. unfold escapes in H.
  destruct ex, (w_benchmark w t bb ta) as [r|e]; try reflexivity.
  destruct (is_exception e); [reflexivity | discriminate].
Qed.

Lemma submit_all_returns (ex : Executor) (bb : Backbone) (d : Device)
  (ts : list (Task * TaskArgs)) (js : list Future) (st : State) :
  submits_return w ex bb d ts = true ->
  submit_all ex bb d ts js w st =
    (inr (js ++ submitted_futures w bb d (st_nalloc st) ts),
     fold_left (fun s p => alloc_submit (fst p) s) ts st).
Proof.
  revert js st. induction ts as [|[t ta] ts IH]; intros js st H.
  - simpl. now rewrite app_nil_r.
  - simpl in H. apply andb_prop in H as [H1 H2]. apply negb_true_iff in H1.
    simpl. unfold bind at 1. rewrite (submit_returns ex t bb (with_device ta d) st H1).
    rewrite (IH _ _ H2). simpl. now rewrite <- app_assoc.
Qed.

Lemma submit_all_escapes (ex : Executor) (bb : Backbone) (d : Device)
  (ts1 ts2 : list (Task * TaskArgs)) (t : Task) (ta : TaskArgs) (e : Exc)
  (js : list Future) (st : State) :
  submits_return w ex bb d ts1 = true ->
  w_benchmark w t bb (with_device ta d) = Raised e ->
  escapes ex (Raised e) = true ->
  submit_all ex bb d (ts1 ++ (t, ta) :: ts2) js w st =
    (inl e, fold_left (fun s p => alloc_submit (fst p) s) (ts1 ++ [(t, ta)]) st).
Proof.
  revert js st. induction ts1 as [|[t1 ta1] ts1 IH]; intros js st H Ho He.
  - simpl. unfold bind, submit. rewrite Ho.
    destruct ex; [discriminate|]. simpl in He.
    apply negb_true_iff in He. rewrite He. reflexivity.
  - simpl in H. apply andb_prop in H as [H1 H2]. apply negb_true_iff in H1.
    simpl. unfold bind at 1. rewrite (submit_returns ex t1 bb (with_device ta1 d) st H1).
    exact (IH _ _ H2 Ho He).
Qed.

(** [main]'s four [if] statements submit the enabled tasks in order. *)
Lemma main_submit_all (a : Args) (st : State) :
  main a w st =
  (ex <- choose_executor (jobs a) ;;
   bb <- load_vision_backbone (model_org a) (model_ckpt a) ;;
   js <- submit_all ex bb (device a) (enabled_tasks a) [] ;;
   _ <- makedirs (report_to a) ;;
   futs <- as_completed ex js ;;
   collect a futs) w st.
Proof.
  unfold main, enabled_tasks.
  cbv [bind]. destruct (choose_executor (jobs a) w st) as [[e|ex] s1]; [reflexivity|].
  destruct (load_vision_backbone (model_org a) (model_ckpt a) w s1) as [[e|bb] s2]; [reflexivity|].
  destruct (newt_run a), (kabr_run a), (plantnet_run a), (iwildcam_run a);
    cbv [submit_if submit_all ret app bind];
    repeat (match goal with |- context [submit ?x1 ?x2 ?x3 ?x4 ?x5 ?x6] =>
              destruct (submit x1 x2 x3 x4 x5 x6) as [[? | ?] ?] end);
    reflexivity.
Qed.

Lemma makedirs_ok (d : string) (st : State) :
  makedirs_succeeds w (st_dirs st) d = true ->
  makedirs d w st = (inr tt, add_dir d st).
Proof.
  unfold makedirs_succeeds, makedirs. intros H.
  apply andb_prop in H as [H1 H2]. apply negb_true_iff in H1. rewrite H1.
  destruct (existsb (String.eqb d) (st_dirs st)) eqn:E.
  - f_equal. destruct st. unfold add_dir. simpl in *. now rewrite E.
  - simpl in H2. apply negb_true_iff in H2. now rewrite H2.
Qed.

Lemma makedirs_frame (d : string) (st : State) :
  let st' := snd (makedirs d w st) in
  st_global_args st' = st_global_args st /\ st_nalloc st' = st_nalloc st /\
  st_writes st' = st_writes st /\ st_log st' = st_log st /\
  st_registry st' = st_registry st /\ st_events st' = st_events st.
Proof.
  unfold makedirs.
  destruct (String.eqb d ""); [simpl; tauto|].
  destruct (existsb (String.eqb d) (st_dirs st)); [simpl; tauto|].
  destruct (existsb (String.eqb d) (w_mkdir_refused w)); simpl; tauto.
Qed.

Lemma main_dispatch (a : Args) (st : State) (ex : Executor) (org : string) (loader : Loader) :
  choose_executor (jobs a) w st = (inr ex, st) ->
  find (fun e => String.eqb (fst e) (model_org a)) (st_registry st) = Some (org, loader) ->
  w_load_failure w (model_org a) (model_ckpt a) = None ->
  submits_return w ex (loader (model_ckpt a)) (device a) (enabled_tasks a) = true ->
  main a w st =
  (_ <- makedirs (report_to a) ;;
   futs <- as_completed ex
             (submitted_futures w (loader (model_ckpt a)) (device a) (st_nalloc st)
                (enabled_tasks a)) ;;
   collect a futs) w
    (fold_left (fun s p => alloc_submit (fst p) s) (enabled_tasks a)
       (add_event (EvLoadBackbone (model_org a) (model_ckpt a)) st)).
Proof.
  intros Hex Hfind Hload Hret. rewrite main_submit_all.
  unfold bind at 1. rewrite Hex.
  unfold bind at 1. unfold load_vision_backbone at 1. rewrite Hfind, Hload.
  unfold bind at 1. rewrite submit_all_returns by exact Hret. reflexivity.
Qed.

Lemma main_collects (a : Args) (st : State) (org : string) (loader : Loader) :
  jobs a <> Slurm ->
  find (fun e => String.eqb (fst e) (model_org a)) (st_registry st) = Some (org, loader) ->
  w_load_failure w (model_org a) (model_ckpt a) = None ->
  submits_return w (jobs_executor (jobs a)) (loader (model_ckpt a)) (device a)
    (enabled_tasks a) = true ->
  makedirs_succeeds w (st_dirs st) (report_to a) = true ->
  let futs := submitted_futures w (loader (model_ckpt a)) (device a) (st_nalloc st)
                (enabled_tasks a) in
  main a w st =
  collect a (match jobs a with Process => w_arrival w futs | _ => as_completed_finished futs end)
    w (add_dir (report_to a)
         (fold_left (fun s p => alloc_submit (fst p) s) (enabled_tasks a)
            (add_event (EvLoadBackbone (model_org a) (model_ckpt a)) st))).
Proof.
  intros Hj Hfind Hload Hret Hmk futs.
  destruct (alloc_all_frame (enabled_tasks a)
              (add_event (EvLoadBackbone (model_org a) (model_ckpt a)) st))
    as [_ [_ [_ [Hd _]]]].
  assert (Hmk' : makedirs_succeeds w
                   (st_dirs (fold_left (fun s p => alloc_submit (fst p) s) (enabled_tasks a)
                               (add_event (EvLoadBackbone (model_org a) (model_ckpt a)) st)))
                   (report_to a) = true) by (rewrite Hd; exact Hmk).
  destruct (jobs a) eqn:E; [contradiction | |].
  - rewrite (main_dispatch a st ProcessPoolExecutor org loader);
      [| now rewrite E | exact Hfind | exact Hload | exact Hret].
    unfold bind at 1. rewrite (makedirs_ok _ _ Hmk'). reflexivity.
  - rewrite (main_dispatch a st DummyExecutor org loader);
      [| now rewrite E | exact Hfind | exact Hload | exact Hret].
    unfold bind at 1. rewrite (makedirs_ok _ _ Hmk'). reflexivity.
Qed.

End MainRuns.

Section RunHelpers.

Variable w : World.

Lemma submitted_addrs (bb : Backbone) (d : Device) (n : nat) (ts : list (Task * TaskArgs)) :
  map fut_addr (submitted_futures w bb d n ts) = map (w_heap w) (seq n (List.length ts)).
Proof.
  revert n. induction ts as [|[t ta] ts IH]; intros n; [reflexivity|].
  simpl. now rewrite IH.
Qed.

Lemma submitted_length (bb : Backbone) (d : Device) (n : nat) (ts : list (Task * TaskArgs)) :
  List.length (submitted_futures w bb d n ts) = List.length ts.
Proof.
  revert n. induction ts as [|[t ta] ts IH]; intros n; [reflexivity|].
  simpl. now rewrite IH.
Qed.

Lemma enabled_tasks_length (a : Args) : (List.length (enabled_tasks a) <= 4)%nat.
Proof.
  unfold enabled_tasks.
  destruct (newt_run a), (kabr_run a), (plantnet_run a), (iwildcam_run a); simpl; lia.
Qed.

Lemma returned_reports_perm (l l' : list Future) :
  Permutation l l' -> Permutation (returned_reports l) (returned_reports l').
Proof. intros H. unfold returned_reports. now rewrite H. Qed.

Lemma raised_excs_perm (l l' : list Future) :
  Permutation l l' -> Permutation (raised_excs l) (raised_excs l').
Proof. intros H. unfold raised_excs. now rewrite H. Qed.

Lemma add_dir_present (d : string) (st : State) :
  existsb (String.eqb d) (st_dirs (add_dir d st)) = true.
Proof.
  unfold add_dir. simpl. destruct (existsb (String.eqb d) (st_dirs st)) eqn:E; [exact E|].
  rewrite existsb_app. simpl. rewrite String.eqb_refl. apply orb_true_r.
Qed.

Lemma main_run_complete (a : Args) (st : State) (org : string) (loader : Loader)
  (futs : list Future) :
  jobs a <> Slurm ->
  find (fun e => String.eqb (fst e) (model_org a)) (st_registry st) = Some (org, loader) ->
  w_load_failure w (model_org a) (model_ckpt a) = None ->
  submits_return w (jobs_executor (jobs a)) (loader (model_ckpt a)) (device a)
    (enabled_tasks a) = true ->
  makedirs_succeeds w (st_dirs st) (report_to a) = true ->
  st_global_args st = Some a ->
  w_unwritable w = [] ->
  futs = submitted_futures w (loader (model_ckpt a)) (device a) (st_nalloc st) (enabled_tasks a) ->
  (forall r, In r (returned_reports futs) -> examples r <> []) ->
  (jobs a = NoJobs ->
     NoDup (map (w_heap w) (seq (st_nalloc st) (List.length (enabled_tasks a)))) /\
     Forall (fun z => (0 <= z < word64)%Z)
       (map (w_heap w) (seq (st_nalloc st) (List.length (enabled_tasks a))))) ->
  (jobs a = Process -> Permutation (w_arrival w futs) futs) ->
  exists st' new,
    main a w st = (inr tt, st') /\
    st_writes st' = st_writes st ++ new /\
    Permutation (map (fun pr => rec_report (snd pr)) new) (returned_reports futs) /\
    Forall (fun pr => p_dir (fst pr) = report_to a) new /\
    exists ws, log_warnings (st_log st') = log_warnings (st_log st) ++ ws /\
               Permutation ws (raised_excs futs).
Proof.
  intros Hj Hfind Hload Hret Hmk Hg Hun Hfuts Hne Hsync Hpool.
  rewrite (main_collects w a st org loader Hj Hfind Hload Hret Hmk). cbv zeta. rewrite <- Hfuts.
  set (s1 := fold_left (fun s p => alloc_submit (fst p) s) (enabled_tasks a)
               (add_event (EvLoadBackbone (model_org a) (model_ckpt a)) st)).
  set (fs := match jobs a with Process => w_arrival w futs | _ => as_completed_finished futs end).
  assert (Hperm : Permutation fs futs).
  { unfold fs. destruct (jobs a) eqn:E; [contradiction | now apply Hpool |].
    destruct (Hsync eq_refl) as [Hnd Hr]. apply as_completed_finished_permutes.
    - now rewrite Hfuts, submitted_addrs.
    - rewrite Hfuts, submitted_length. apply enabled_tasks_length.
    - apply Forall_forall. intros f Hf. rewrite Forall_forall in Hr. apply Hr.
      rewrite <- (submitted_addrs (loader (model_ckpt a)) (device a)), <- Hfuts.
      now apply in_map. }
  destruct (alloc_all_frame (enabled_tasks a)
              (add_event (EvLoadBackbone (model_org a) (model_ckpt a)) st))
    as [F1 [_ [_ [_ [F5 [F6 _]]]]]].
  fold s1 in F1, F5, F6. simpl in F1, F5, F6.
  assert (Hg2 : st_global_args (add_dir (report_to a) s1) = Some a) by (simpl; congruence).
  destruct (collect_all_saved w a a fs (add_dir (report_to a) s1) Hg2
              (add_dir_present (report_to a) s1) Hun
              (fun r Hr => Hne r (Permutation_in _ (returned_reports_perm _ _ Hperm) Hr)))
    as [st' [new [Hc [Hw [Hmap Hl]]]]].
  exists st', new. split; [exact Hc|]. split.
  { rewrite Hw. simpl. now rewrite F5. }
  split.
  { replace (map (fun pr => rec_report (snd pr)) new)
      with (map snd (map (fun pr => (fst pr, rec_report (snd pr))) new))
      by (rewrite map_map; reflexivity).
    rewrite Hmap, saved_by_collect_reports. now apply returned_reports_perm. }
  split.
  { apply Forall_forall. intros pr Hin.
    assert (Hp : In (fst pr) (map fst (saved_by_collect (w_clock w) (report_to a)
                                         (st_ticks (add_dir (report_to a) s1)) fs))).
    { rewrite <- Hmap, map_map. now apply (in_map (fun x => fst x)). }
    rewrite saved_by_collect_paths in Hp. apply in_map_iff in Hp as [k [Hk _]].
    now rewrite <- Hk. }
  exists (raised_excs fs). split.
  - rewrite Hl. simpl. now rewrite F6.
  - now apply raised_excs_perm.
Qed.


End RunHelpers.

(** ** Extras *)

Section Extras.

Variable w : World.

(** X1. When [save] returns normally, it has appended exactly one line, the
    record of the report with the caller's arguments, its mean score and its
    confidence interval, to the file named after this call's clock reading
    under the module-global args' [report_to], and then logged the mean and
    every split in order.  When it raises, it has logged nothing. *)
Theorem save_returns_after_one_record (args : Args) (r : BenchmarkReport) (st : State) :
  match save args r w st with
  | (inl _, st') => st_log st' = st_log st
  | (inr _, st') =>
      exists g m lo hi,
        st_global_args st = Some g /\
        mean_score_of w r = Some m /\
        ci_of w r = Some (lo, hi) /\
        st_writes st' = st_writes st ++
          [(mkPath (report_to g) (report_file_name (w_clock w (st_ticks st))),
            mkRecord r args m lo hi)] /\
        st_log st' = st_log st ++ LogMean (model_ckpt args) (name r) m ::
          map (fun kv => LogSplit (model_ckpt args) (name r) (fst kv) (snd kv)) (splits r)
  end.
Proof.
  cbv [save bind from_option mean_score confidence_interval ret raise report_path time_time
       global_args append_line log modify].
  destruct (mean_score_of w r) as [m|] eqn:Hm; [|simpl; auto].
  destruct (ci_of w r) as [[lo hi]|] eqn:Hci; [|simpl; auto].
  simpl. destruct (st_global_args st) as [g|] eqn:Hg; [|simpl; auto].
  simpl. destruct (existsb (String.eqb (report_to g)) (st_dirs st)); [|simpl; auto].
  simpl. match goal with |- context [if existsb ?p (w_unwritable w) then _ else _] =>
    destruct (existsb p (w_unwritable w)) end; [simpl; auto|].
  rewrite log_splits_eq. simpl. exists g, m, lo, hi. repeat split; auto.
  now rewrite <- app_assoc.
Qed.

(** X2. When the module-global [args] is unbound ([benchmark.py] imported
    rather than run), [save] of a non-empty report raises [NameError] for
    [args] once it has read the clock, and appends nothing. *)
Theorem save_raises_when_args_unbound (args : Args) (r : BenchmarkReport) (st : State) :
  st_global_args st = None -> examples r <> [] ->
  save args r w st = (inl (NameError "args"), tick st).
Proof.
  intros Hg Hne. destruct (aggregation_nonempty w r Hne) as [Hm [lo [hi Hci]]].
  cbv [save bind from_option mean_score confidence_interval ret raise report_path time_time
       global_args].
  rewrite Hm, Hci. simpl. now rewrite Hg.
Qed.

(** X3. When the module-global args' output directory exists, no write is
    refused and every returned report is non-empty, the collection loop runs
    to its end: it appends one line per returned future, in collection
    order, each holding that future's report and lying under the global
    args' [report_to], and logs one warning per raised future, in order. *)
Theorem collect_saves_returned_and_logs_raised (args g : Args) (futs : list Future) (st : State) :
  st_global_args st = Some g ->
  existsb (String.eqb (report_to g)) (st_dirs st) = true ->
  w_unwritable w = [] ->
  (forall r, In r (returned_reports futs) -> examples r <> []) ->
  exists st' new,
    collect args futs w st = (inr tt, st') /\
    st_writes st' = st_writes st ++ new /\
    map (fun pr => rec_report (snd pr)) new = returned_reports futs /\
    Forall (fun pr => p_dir (fst pr) = report_to g) new /\
    log_warnings (st_log st') = log_warnings (st_log st) ++ raised_excs futs.
Proof.
  intros Hg Hd Hun Hne.
  destruct (collect_all_saved w args g futs st Hg Hd Hun Hne) as [st' [new [Hc [Hw [Hmap Hl]]]]].
  exists st', new. repeat split; try assumption.
  - replace (map (fun pr => rec_report (snd pr)) new)
      with (map snd (map (fun pr => (fst pr, rec_report (snd pr))) new))
      by (rewrite map_map; reflexivity).
    now rewrite Hmap, saved_by_collect_reports.
  - apply Forall_forall. intros pr Hin.
    assert (Hp : In (fst pr) (map fst (saved_by_collect (w_clock w) (report_to g) (st_ticks st) futs))).
    { rewrite <- Hmap, map_map. now apply (in_map (fun x => fst x)). }
    rewrite saved_by_collect_paths in Hp. apply in_map_iff in Hp as [k [Hk _]].
    now rewrite <- Hk.
Qed.

(** X4. With a supported [jobs] value, a registered organisation whose
    loader builds the backbone, and (on the in-process executor) no task
    raising a [BaseException] that is not an [Exception], [main] loads the
    backbone once and then submits exactly the enabled tasks, in the order
    NeWT, KABR, Pl@ntNet, iWildCam, whatever happens when it creates the
    output directory and collects the results afterwards. *)
Theorem main_submits_enabled_tasks_in_order (a : Args) (st : State) (org : string) (loader : Loader) :
  jobs a <> Slurm ->
  find (fun e => String.eqb (fst e) (model_org a)) (st_registry st) = Some (org, loader) ->
  w_load_failure w (model_org a) (model_ckpt a) = None ->
  submits_return w (jobs_executor (jobs a)) (loader (model_ckpt a)) (device a)
    (enabled_tasks a) = true ->
  st_events (snd (main a w st)) =
    st_events st ++ EvLoadBackbone (model_org a) (model_ckpt a)
                     :: map (fun p => EvSubmit (fst p)) (enabled_tasks a).
Proof.
  intros Hj Hfind Hload Hret.
  assert (Hex : choose_executor (jobs a) w st = (inr (jobs_executor (jobs a)), st))
    by (destruct (jobs a); [contradiction | reflexivity | reflexivity]).
  rewrite (main_dispatch w a st _ org loader Hex Hfind Hload Hret).
  destruct (alloc_all_frame (enabled_tasks a)
              (add_event (EvLoadBackbone (model_org a) (model_ckpt a)) st))
    as [_ [_ [_ [_ [_ [_ [_ Hev]]]]]]].
  set (s1 := fold_left (fun s p => alloc_submit (fst p) s) (enabled_tasks a)
               (add_event (EvLoadBackbone (model_org a) (model_ckpt a)) st)) in *.
  assert (Hev' : st_events s1 =
            st_events st ++ EvLoadBackbone (model_org a) (model_ckpt a)
                            :: map (fun p => EvSubmit (fst p)) (enabled_tasks a))
    by (rewrite Hev; simpl; now rewrite <- app_assoc).
  pose proof (makedirs_frame w (report_to a) s1) as Hm. cbv zeta in Hm.
  unfold bind at 1.
  destruct (makedirs (report_to a) w s1) as [[e|[]] s2]; simpl in Hm |- *;
    destruct Hm as [_ [_ [_ [_ [_ Hm]]]]]; [congruence|].
  unfold bind, as_completed.
  destruct (jobs_executor (jobs a));
    match goal with |- st_events (snd (collect a ?fs w ?s)) = _ =>
      destruct (collect_frame w a fs s) as [_ [_ [_ [_ Hc]]]] end;
    congruence.
Qed.

(** X5. With a supported [jobs] value and an unregistered organisation,
    [main] raises the unknown-backbone error and leaves the state as it
    was: nothing submitted, no directory created, nothing written or
    logged. *)
Theorem main_unknown_backbone_changes_nothing (a : Args) (st : State) :
  jobs a <> Slurm ->
  find (fun e => String.eqb (fst e) (model_org a)) (st_registry st) = None ->
  main a w st = (inl (UnknownBackboneError (model_org a)), st).
Proof.
  intros Hj Hfind. cbv [main bind choose_executor ret raise load_vision_backbone].
  destruct (jobs a); [contradiction | rewrite Hfind; reflexivity | rewrite Hfind; reflexivity].
Qed.

(** X6. With no task enabled, a registered organisation whose loader builds
    the backbone and an output directory [os.makedirs] can create (or that
    exists), [main] only loads the backbone and creates its output
    directory; it submits, writes and logs nothing. *)
Theorem main_without_tasks_only_prepares (a : Args) (st : State) (org : string) (loader : Loader) :
  jobs a <> Slurm ->
  find (fun e => String.eqb (fst e) (model_org a)) (st_registry st) = Some (org, loader) ->
  w_load_failure w (model_org a) (model_ckpt a) = None ->
  makedirs_succeeds w (st_dirs st) (report_to a) = true ->
  enabled_tasks a = [] ->
  (jobs a = Process -> w_arrival w [] = []) ->
  main a w st =
    (inr tt, add_dir (report_to a) (add_event (EvLoadBackbone (model_org a) (model_ckpt a)) st)).
Proof.
  intros Hj Hfind Hload Hmk Hen Harr.
  assert (Hret : submits_return w (jobs_executor (jobs a)) (loader (model_ckpt a)) (device a)
                   (enabled_tasks a) = true) by (rewrite Hen; reflexivity).
  rewrite (main_collects w a st org loader Hj Hfind Hload Hret Hmk). cbv zeta.
  rewrite Hen. simpl.
  destruct (jobs a); [contradiction | rewrite Harr; reflexivity | reflexivity].
Qed.

(** X7. For up to four futures with distinct addresses (unsigned 64-bit
    words), [as_completed] over finished futures yields every future
    exactly once, whatever slots their hashes select. *)
Theorem as_completed_yields_each_future_once (fs : list Future) :
  NoDup (map fut_addr fs) -> (List.length fs <= 4)%nat ->
  Forall (fun f => (0 <= fut_addr f < word64)%Z) fs ->
  Permutation (as_completed_finished fs) fs.
Proof. exact (as_completed_finished_permutes fs). Qed.

(** X8. When [main] runs with the module-global [args] bound to its own
    argument (as under [__main__]), a registered organisation whose loader
    builds the backbone, an output directory [os.makedirs] can create, no
    task escaping the in-process executor's [submit], no refused write and
    non-empty reports (on the in-process executor with distinct future
    addresses, or on a process pool whose completions are a reordering of
    the jobs), it completes: every enabled task, called with its
    configuration and [args.device], has its report appended exactly once
    under [args.report_to] if it returned, and its exception logged exactly
    once if it raised. *)
Theorem main_saves_or_logs_every_task (a : Args) (st : State) (org : string) (loader : Loader)
  (futs : list Future) :
  jobs a <> Slurm ->
  find (fun e => String.eqb (fst e) (model_org a)) (st_registry st) = Some (org, loader) ->
  w_load_failure w (model_org a) (model_ckpt a) = None ->
  submits_return w (jobs_executor (jobs a)) (loader (model_ckpt a)) (device a)
    (enabled_tasks a) = true ->
  makedirs_succeeds w (st_dirs st) (report_to a) = true ->
  st_global_args st = Some a ->
  w_unwritable w = [] ->
  futs = submitted_futures w (loader (model_ckpt a)) (device a) (st_nalloc st) (enabled_tasks a) ->
  (forall r, In r (returned_reports futs) -> examples r <> []) ->
  (jobs a = NoJobs ->
     NoDup (map (w_heap w) (seq (st_nalloc st) (List.length (enabled_tasks a)))) /\
     Forall (fun z => (0 <= z < word64)%Z)
       (map (w_heap w) (seq (st_nalloc st) (List.length (enabled_tasks a))))) ->
  (jobs a = Process -> Permutation (w_arrival w futs) futs) ->
  exists st' new,
    main a w st = (inr tt, st') /\
    st_writes st' = st_writes st ++ new /\
    Permutation (map (fun pr => rec_report (snd pr)) new) (returned_reports futs) /\
    Forall (fun pr => p_dir (fst pr) = report_to a) new /\
    exists ws, log_warnings (st_log st') = log_warnings (st_log st) ++ ws /\
               Permutation ws (raised_excs futs).
Proof. exact (main_run_complete w a st org loader futs). Qed.


(** X11. With a supported [jobs] value and a registered organisation whose
    loader raises, [main] raises that exception and leaves the state as it
    was: nothing submitted, no directory created, nothing written or
    logged. *)
Theorem main_load_failure_changes_nothing (a : Args) (st : State) (org : string)
  (loader : Loader) (e : Exc) :
  jobs a <> Slurm ->
  find (fun e => String.eqb (fst e) (model_org a)) (st_registry st) = Some (org, loader) ->
  w_load_failure w (model_org a) (model_ckpt a) = Some e ->
  main a w st = (inl e, st).
Proof.
  intros Hj Hfind Hl. cbv [main bind choose_executor ret raise load_vision_backbone].
  destruct (jobs a); [contradiction | | ]; rewrite Hfind, Hl; reflexivity.
Qed.

(** X12. With the in-process executor, when an enabled task raises a
    [BaseException] that is not an [Exception] ([KeyboardInterrupt],
    [SystemExit]) and the tasks before it did not, [DummyExecutor.submit]
    lets it out and [main] raises it at once: the later tasks are never
    submitted, no output directory is created, nothing is written and no
    failure is logged. *)
Theorem main_interrupt_escapes_in_process (a : Args) (st : State) (org : string)
  (loader : Loader) (ts1 ts2 : list (Task * TaskArgs)) (t : Task) (ta : TaskArgs) (e : Exc) :
  jobs a = NoJobs ->
  find (fun e => String.eqb (fst e) (model_org a)) (st_registry st) = Some (org, loader) ->
  w_load_failure w (model_org a) (model_ckpt a) = None ->
  enabled_tasks a = ts1 ++ (t, ta) :: ts2 ->
  submits_return w DummyExecutor (loader (model_ckpt a)) (device a) ts1 = true ->
  w_benchmark w t (loader (model_ckpt a)) (with_device ta (device a)) = Raised e ->
  is_exception e = false ->
  main a w st =
    (inl e, fold_left (fun s p => alloc_submit (fst p) s) (ts1 ++ [(t, ta)])
              (add_event (EvLoadBackbone (model_org a) (model_ckpt a)) st)).
Proof.
  intros Hj Hfind Hload Hen Hret Ho Hexc.
  assert (Hex : choose_executor (jobs a) w st = (inr DummyExecutor, st)) by (now rewrite Hj).
  rewrite main_submit_all. unfold bind at 1. rewrite Hex.
  unfold bind at 1. unfold load_vision_backbone at 1. rewrite Hfind, Hload.
  unfold bind at 1. rewrite Hen.
  rewrite (submit_all_escapes w DummyExecutor _ _ ts1 ts2 t ta e [] _ Hret Ho)
    by (simpl; now rewrite Hexc).
  reflexivity.
Qed.

(** X13. When [report_to] is the empty string, [main] (with a supported
    [jobs] value, a registered organisation whose loader builds the
    backbone, and no task escaping [submit]) submits every enabled task and
    then raises [FileNotFoundError] from [os.makedirs("")], before any
    report is collected: nothing is written and no failure is logged. *)
Theorem main_empty_report_to_fails_after_submitting (a : Args) (st : State) (org : string)
  (loader : Loader) :
  jobs a <> Slurm ->
  find (fun e => String.eqb (fst e) (model_org a)) (st_registry st) = Some (org, loader) ->
  w_load_failure w (model_org a) (model_ckpt a) = None ->
  submits_return w (jobs_executor (jobs a)) (loader (model_ckpt a)) (device a)
    (enabled_tasks a) = true ->
  report_to a = "" ->
  main a w st =
    (inl (FileNotFoundError ""),
     fold_left (fun s p => alloc_submit (fst p) s) (enabled_tasks a)
       (add_event (EvLoadBackbone (model_org a) (model_ckpt a)) st)).
Proof.
  intros Hj Hfind Hload Hret Hr.
  assert (Hex : choose_executor (jobs a) w st = (inr (jobs_executor (jobs a)), st))
    by (destruct (jobs a); [contradiction | reflexivity | reflexivity]).
  rewrite (main_dispatch w a st _ org loader Hex Hfind Hload Hret).
  unfold bind at 1. unfold makedirs at 1. rewrite Hr. reflexivity.
Qed.

End Extras.

Lemma fold_qmax_spec (xs : list Q) (acc : Q) :
  (acc <= fold_left Qmax xs acc)%Q /\
  (forall x, In x xs -> (x <= fold_left Qmax xs acc)%Q) /\
  (fold_left Qmax xs acc = acc \/ In (fold_left Qmax xs acc) xs).
Proof.
  revert acc. induction xs as [|x xs IH]; intros acc; simpl.
  - split; [apply Qle_refl | split; [intros _ []| now left]].
  - destruct (IH (Qmax acc x)) as [H1 [H2 H3]]. split; [|split].
    + eapply Qle_trans; [apply Q.le_max_l | exact H1].
    + intros y [<-|Hy]; [eapply Qle_trans; [apply Q.le_max_r | exact H1] | now apply H2].
    + destruct H3 as [H3|H3]; [|now right; right].
      rewrite H3. unfold Qmax, GenericMinMax.gmax.
      destruct (acc ?= x)%Q; [now left | now right; left | now left].
Qed.

Lemma combine_map_same {A B C : Type} (f : A -> B) (g : A -> C) (l : list A) :
  combine (map f l) (map g l) = map (fun x => (f x, g x)) l.
Proof. induction l as [|x l IH]; simpl; [reflexivity | now rewrite IH]. Qed.

(** X10. In [plot_task], every model of the task gets the same lower error
    bar, the largest [mean - lower] over the task's rows ([np.max] reduces
    the whole row), not its own; each upper bar is the row's
    [upper - mean]; with no row for the task [np.max] raises. *)
Theorem plot_task_lower_error_is_shared (reports : list ReportRow) (task : string) :
  match plot_task_yerr reports task with
  | None => filter (fun r => String.eqb (report_name r) task) reports = []
  | Some (lo, up) =>
      exists m,
        lo = repeat m (List.length (filter (fun r => String.eqb (report_name r) task) reports)) /\
        (forall r, In r (filter (fun r => String.eqb (report_name r) task) reports) ->
           (report_mean_score r - report_confidence_interval_lower r <= m)%Q) /\
        (exists r, In r (filter (fun r => String.eqb (report_name r) task) reports) /\
           m = (report_mean_score r - report_confidence_interval_lower r)%Q) /\
        up = map (fun r => (report_confidence_interval_upper r - report_mean_score r)%Q)
               (filter (fun r => String.eqb (report_name r) task) reports)
  end.
Proof.
  unfold plot_task_yerr. cbv zeta.
  remember (filter (fun r => String.eqb (report_name r) task) reports) as rows eqn:Hrows.
  rewrite !combine_map_same, !map_map. simpl.
  destruct rows as [|r0 rs]; simpl; [reflexivity|].
  set (h := fun r => (report_mean_score r - report_confidence_interval_lower r)%Q).
  destruct (fold_qmax_spec (map h rs) (h r0)) as [H1 [H2 H3]].
  exists (fold_left Qmax (map h rs) (h r0)). split; [|split; [|split]].
  - f_equal. rewrite map_const, length_map. reflexivity.
  - intros r [<-|Hr]; [exact H1 | apply H2; now apply (in_map h)].
  - destruct H3 as [H3|H3].
    + exists r0. split; [now left | exact H3].
    + apply in_map_iff in H3 as [r [Hr Hin]]. exists r. split; [now right | now rewrite <- Hr].
  - reflexivity.
Qed.

Section ExtraWitnesses.

Lemma save_raises_when_args_unbound_witness :
  save demo_args (one_example_report "newt") (demo_world (Returned (one_example_report "newt")) [])
    (mkState None 0 0 [default_report_to] [] [] [] []) =
  (inl (NameError "args"), tick (mkState None 0 0 [default_report_to] [] [] [] [])).
Proof.
  apply (save_raises_when_args_unbound (demo_world (Returned (one_example_report "newt")) [])).
  - reflexivity.
  - discriminate.
Defined.

Lemma collect_saves_returned_and_logs_raised_witness :
  exists st' new,
    collect demo_args (demo_futures (Raised (TaskError "boom")))
      (demo_world (Raised (TaskError "boom")) []) demo_ready_state = (inr tt, st') /\
    st_writes st' = st_writes demo_ready_state ++ new /\
    map (fun pr => rec_report (snd pr)) new =
      returned_reports (demo_futures (Raised (TaskError "boom"))) /\
    Forall (fun pr => p_dir (fst pr) = report_to demo_args) new /\
    log_warnings (st_log st') =
      log_warnings (st_log demo_ready_state) ++ raised_excs (demo_futures (Raised (TaskError "boom"))).
Proof.
  apply (collect_saves_returned_and_logs_raised (demo_world (Raised (TaskError "boom")) [])).
  - reflexivity.
  - reflexivity.
  - reflexivity.
  - simpl. intros r [<-|[]]. discriminate.
Defined.

Lemma main_submits_enabled_tasks_in_order_witness :
  st_events (snd (main demo_args (demo_world (Returned (one_example_report "newt")) []) demo_state)) =
    st_events demo_state ++ EvLoadBackbone (model_org demo_args) (model_ckpt demo_args)
      :: map (fun p => EvSubmit (fst p)) (enabled_tasks demo_args).
Proof.
  apply (main_submits_enabled_tasks_in_order (demo_world (Returned (one_example_report "newt")) [])
           demo_args demo_state "open-clip" OpenClip).
  - discriminate.
  - reflexivity.
  - reflexivity.
  - reflexivity.
Defined.

Lemma main_unknown_backbone_changes_nothing_witness :
  main default_args (demo_world (Returned (one_example_report "newt")) []) demo_state =
  (inl (UnknownBackboneError (model_org default_args)), demo_state).
Proof.
  apply (main_unknown_backbone_changes_nothing (demo_world (Returned (one_example_report "newt")) [])).
  - discriminate.
  - reflexivity.
Defined.

Lemma main_without_tasks_only_prepares_witness :
  main idle_args (demo_world (Returned (one_example_report "newt")) []) demo_state =
  (inr tt, add_dir (report_to idle_args)
             (add_event (EvLoadBackbone (model_org idle_args) (model_ckpt idle_args)) demo_state)).
Proof.
  apply (main_without_tasks_only_prepares (demo_world (Returned (one_example_report "newt")) [])
           idle_args demo_state "open-clip" OpenClip).
  - discriminate.
  - reflexivity.
  - reflexivity.
  - reflexivity.
  - reflexivity.
  - discriminate.
Defined.

Lemma as_completed_yields_each_future_once_witness :
  Permutation (as_completed_finished (demo_futures (Returned (one_example_report "newt"))))
    (demo_futures (Returned (one_example_report "newt"))).
Proof.
  apply as_completed_yields_each_future_once.
  - simpl. repeat constructor; simpl; intuition discriminate.
  - simpl. lia.
  - repeat constructor; simpl; unfold word64; lia.
Defined.

Lemma main_saves_or_logs_every_task_witness :
  exists st' new,
    main demo_args (demo_world (Returned (one_example_report "newt")) []) demo_state = (inr tt, st') /\
    st_writes st' = st_writes demo_state ++ new /\
    Permutation (map (fun pr => rec_report (snd pr)) new)
      (returned_reports (submitted_futures (demo_world (Returned (one_example_report "newt")) [])
                           (OpenClip (model_ckpt demo_args)) (device demo_args) 0
                           (enabled_tasks demo_args))) /\
    Forall (fun pr => p_dir (fst pr) = report_to demo_args) new /\
    exists ws, log_warnings (st_log st') = log_warnings (st_log demo_state) ++ ws /\
      Permutation ws
        (raised_excs (submitted_futures (demo_world (Returned (one_example_report "newt")) [])
                        (OpenClip (model_ckpt demo_args)) (device demo_args) 0
                        (enabled_tasks demo_args))).
Proof.
  apply (main_saves_or_logs_every_task (demo_world (Returned (one_example_report "newt")) [])
           demo_args demo_state "open-clip" OpenClip).
  - discriminate.
  - reflexivity.
  - reflexivity.
  - reflexivity.
  - reflexivity.
  - reflexivity.
  - reflexivity.
  - reflexivity.
  - simpl. intros r [<-|[<-|[]]]; discriminate.
  - intros _. simpl. split.
    + repeat constructor; simpl; intuition discriminate.
    + repeat constructor; unfold word64; lia.
  - discriminate.
Defined.


Lemma main_load_failure_changes_nothing_witness :
  main demo_args
    (with_load_failure (demo_world (Returned (one_example_report "newt")) [])
       (fun _ ckpt => Some (OSError ckpt))) demo_state =
  (inl (OSError "RN50/openai"), demo_state).
Proof.
  apply (main_load_failure_changes_nothing
           (with_load_failure (demo_world (Returned (one_example_report "newt")) [])
              (fun _ ckpt => Some (OSError ckpt)))
           demo_args demo_state "open-clip" OpenClip).
  - discriminate.
  - reflexivity.
  - reflexivity.
Defined.

Lemma main_interrupt_escapes_in_process_witness :
  main demo_args (demo_world (Raised (Interrupt "KeyboardInterrupt")) []) demo_state =
  (inl (Interrupt "KeyboardInterrupt"),
   fold_left (fun s p => alloc_submit (fst p) s) [(Newt, default_task_args)]
     (add_event (EvLoadBackbone "open-clip" "RN50/openai") demo_state)).
Proof.
  apply (main_interrupt_escapes_in_process (demo_world (Raised (Interrupt "KeyboardInterrupt")) [])
           demo_args demo_state "open-clip" OpenClip [] [(Kabr, default_task_args)]
           Newt default_task_args).
  - reflexivity.
  - reflexivity.
  - reflexivity.
  - reflexivity.
  - reflexivity.
  - reflexivity.
  - reflexivity.
Defined.

Lemma main_empty_report_to_fails_after_submitting_witness :
  main unplaced_args (demo_world (Returned (one_example_report "newt")) []) demo_state =
  (inl (FileNotFoundError ""),
   fold_left (fun s p => alloc_submit (fst p) s) (enabled_tasks unplaced_args)
     (add_event (EvLoadBackbone "open-clip" "RN50/openai") demo_state)).
Proof.
  apply (main_empty_report_to_fails_after_submitting
           (demo_world (Returned (one_example_report "newt")) [])
           unplaced_args demo_state "open-clip" OpenClip).
  - discriminate.
  - reflexivity.
  - reflexivity.
  - reflexivity.
  - reflexivity.
Defined.

End ExtraWitnesses.
